(** * URL phishing detector: a shallow embedding of the decision pipeline

    The development follows [backend/app/ml/features.py] (class
    [FeatureExtractor]) and [backend/app/ml/model.py] (class
    [PhishingDetector]).

    Conventions of the embedding:
    - a Python [str] is a Rocq [string]; case folding and digit tests are the
      ASCII ones;
    - a Python [float] that a feature can hold is a [pyfloat]: a rational, or
      one of the three non-finite values; a confidence is a rational;
    - a Python [dict] with ordered keys is an association list, in insertion
      order;
    - a raised exception is the [Raise] branch of [result]; [try]/[except]
      is a [match] on it;
    - everything the detector reaches through the network or through a
      third-party package (URL parsing, DNS, WHOIS, page fetch, the trained
      model) is a field of the record [World]. *)

From Stdlib Require Import String Ascii List Bool Arith ZArith QArith Qminmax Lia Lqa.
From Stdlib Require Import Sorted Permutation.
Import ListNotations.

Close Scope Q_scope.
Open Scope string_scope.

(** ** Python string primitives *)

Module PyStr.

Definition is_upper (c : ascii) : bool :=
  let n := nat_of_ascii c in (65 <=? n)%nat && (n <=? 90)%nat.

Definition is_digit (c : ascii) : bool :=
  let n := nat_of_ascii c in (48 <=? n)%nat && (n <=? 57)%nat.

Definition lower_ascii (c : ascii) : ascii :=
  if is_upper c then ascii_of_nat (nat_of_ascii c + 32) else c.

(** [s.lower()] *)
Fixpoint lower (s : string) : string :=
  match s with
  | EmptyString => EmptyString
  | String c r => String (lower_ascii c) (lower r)
  end.

(** [s.startswith(p)] *)
Definition startswith (s p : string) : bool := String.prefix p s.

(** [s.endswith(suf)]: some tail of [s] is [suf]. *)
Fixpoint endswith (s suf : string) : bool :=
  if String.eqb s suf then true
  else match s with
       | EmptyString => false
       | String _ r => endswith r suf
       end.

(** [sub in s] *)
Fixpoint contains (sub s : string) : bool :=
  if String.prefix sub s then true
  else match s with
       | EmptyString => false
       | String _ r => contains sub r
       end.

(** [s.count(c)] for a one-character needle. *)
Fixpoint count_char (c : ascii) (s : string) : nat :=
  match s with
  | EmptyString => 0
  | String a r => (if Ascii.eqb a c then 1 else 0) + count_char c r
  end.

(** [s[n:]] *)
Fixpoint drop (n : nat) (s : string) : string :=
  match n, s with
  | O, _ => s
  | S _, EmptyString => EmptyString
  | S n', String _ r => drop n' r
  end.

(** [s.split(c)] *)
Fixpoint split (c : ascii) (s : string) : list string :=
  match s with
  | EmptyString => [EmptyString]
  | String a r =>
      if Ascii.eqb a c then EmptyString :: split c r
      else match split c r with
           | [] => [String a EmptyString]
           | w :: ws => String a w :: ws
           end
  end.

(** [s.split(c)[0]] *)
Definition first_field (c : ascii) (s : string) : string :=
  hd EmptyString (split c s).

(** [x in l] for a list or set of strings. *)
Definition mem (x : string) (l : list string) : bool :=
  existsb (String.eqb x) l.

End PyStr.

Import PyStr.

(** ** [model.py]: the module-level tables *)

(** [WHITELIST]: a Python set; only membership and [any]-style iteration are
    used, so the order of the list below is immaterial. *)
Definition WHITELIST : list string :=
  [ "google.com"; "www.google.com"; "google.co.uk"; "google.ca"; "google.com.au";
    "google.de"; "google.fr"; "google.it"; "google.es"; "google.co.in";
    "google.co.jp"; "google.com.br";
    "bing.com"; "www.bing.com";
    "duckduckgo.com"; "www.duckduckgo.com";
    "yahoo.com"; "www.yahoo.com"; "yahoo.co.jp";
    "github.com"; "www.github.com"; "github.io";
    "microsoft.com"; "www.microsoft.com"; "live.com"; "office.com"; "azure.com";
    "apple.com"; "www.apple.com"; "icloud.com";
    "facebook.com"; "www.facebook.com"; "fb.com"; "messenger.com";
    "twitter.com"; "x.com"; "t.co";
    "linkedin.com"; "www.linkedin.com";
    "instagram.com"; "www.instagram.com";
    "youtube.com"; "www.youtube.com"; "youtu.be";
    "whatsapp.com"; "www.whatsapp.com";
    "netflix.com"; "www.netflix.com";
    "dropbox.com"; "www.dropbox.com";
    "adobe.com"; "www.adobe.com";
    "amazon.com"; "www.amazon.com"; "amazon.co.uk"; "amazon.de"; "amazon.fr";
    "amazon.it"; "amazon.es"; "amazon.ca"; "amazon.in"; "amazon.co.jp";
    "amazon.com.br"; "amazon.com.mx"; "amazon.com.au"; "aws.amazon.com";
    "media-amazon.com"; "ssl-images-amazon.com";
    "ebay.com"; "www.ebay.com"; "ebay.co.uk"; "ebay.de";
    "walmart.com"; "www.walmart.com";
    "target.com"; "www.target.com";
    "bestbuy.com"; "www.bestbuy.com";
    "aliexpress.com"; "www.aliexpress.com";
    "etsy.com"; "www.etsy.com";
    "paypal.com"; "www.paypal.com";
    "stripe.com"; "www.stripe.com";
    "chase.com"; "www.chase.com";
    "wellsfargo.com"; "www.wellsfargo.com";
    "bankofamerica.com"; "www.bankofamerica.com";
    "americanexpress.com"; "www.americanexpress.com";
    "wikipedia.org"; "www.wikipedia.org";
    "nytimes.com"; "www.nytimes.com";
    "cnn.com"; "www.cnn.com";
    "bbc.co.uk"; "www.bbc.co.uk"; "bbc.com";
    "reddit.com"; "www.reddit.com";
    "stackoverflow.com"; "www.stackoverflow.com";
    "medium.com"; "www.medium.com";
    "localhost"; "127.0.0.1" ].

(** [TARGET_BRANDS]: a Python dict, iterated in insertion order. *)
Definition TARGET_BRANDS : list (string * list string) :=
  [ ("google", ["google.com"; "gmail.com"; "google.co.uk"; "google.de"; "google.fr";
                "google.it"; "google.es"; "google.ca"; "google.com.au"; "google.co.in";
                "google.co.jp"; "google.com.br"]);
    ("microsoft", ["microsoft.com"; "office.com"; "live.com"; "azure.com";
                   "outlook.com"; "hotmail.com"; "windows.com"]);
    ("apple", ["apple.com"; "icloud.com"; "itunes.com"]);
    ("amazon", ["amazon.com"; "amazon.co.uk"; "amazon.de"; "amazon.fr"; "amazon.it";
                "amazon.es"; "amazon.ca"; "amazon.in"; "amazon.co.jp"; "amazon.com.br";
                "amazon.com.mx"; "amazon.com.au"; "aws.amazon.com"]);
    ("paypal", ["paypal.com"; "paypal.me"]);
    ("netflix", ["netflix.com"]);
    ("facebook", ["facebook.com"; "fb.com"; "messenger.com"]);
    ("instagram", ["instagram.com"]);
    ("linkedin", ["linkedin.com"]);
    ("twitter", ["twitter.com"; "x.com"; "t.co"]);
    ("dropbox", ["dropbox.com"]);
    ("adobe", ["adobe.com"]);
    ("chase", ["chase.com"]);
    ("wellsfargo", ["wellsfargo.com"]);
    ("bankofamerica", ["bankofamerica.com"]);
    ("ebay", ["ebay.com"; "ebay.co.uk"; "ebay.de"]) ].

(** ** [PhishingDetector.predict], lines 173-180: the whitelist test

    [domain] is [urlparse(url).netloc]; the source lower-cases it, tests
    membership, and otherwise looks for a trusted entry of which the domain
    is a dot-separated subdomain. *)
Definition is_whitelisted (netloc : string) : bool :=
  let domain := lower netloc in
  if mem domain WHITELIST then true
  else existsb (fun trusted => endswith domain ("." ++ trusted)) WHITELIST.

(** ** Python values, floats and exceptions *)

(** The exceptions the modelled code can meet.  Every handler of the source
    is [except Exception] or a bare [except], so the identity of the
    exception never decides a branch; it is kept for readability. *)
Inductive exn : Type :=
| ValueError | TypeError | AttributeError | OverflowError
| KeyError | IndexError | NameError
| NXDOMAIN | NoAnswer | NoNameservers | LifetimeTimeout
| ConnectionError | OtherError.

Inductive result (A : Type) : Type :=
| Ok (a : A)
| Raise (e : exn).

Arguments Ok {A} a.
Arguments Raise {A} e.

Definition bind {A B : Type} (m : result A) (k : A -> result B) : result B :=
  match m with
  | Ok a => k a
  | Raise e => Raise e
  end.

Declare Scope py_scope.
Delimit Scope py_scope with py.
Notation "x <- m ;; k" := (bind m (fun x => k))
  (at level 61, m at next level, right associativity) : py_scope.
Notation "' pat <- m ;; k" := (bind m (fun x => match x with pat => k end))
  (at level 61, pat pattern, m at next level, right associativity) : py_scope.

(** A Python [float]: a finite value (kept exact) or a non-finite one. *)
Inductive pyfloat : Type :=
| Fin (q : Q)
| PosInf
| NegInf
| NaN.

Definition is_finite (f : pyfloat) : bool :=
  match f with Fin _ => true | _ => false end.

Definition Qltb (a b : Q) : bool := negb (Qle_bool b a).

(** [x > k] and [x < y] on floats: every comparison with NaN is false. *)
Definition float_gt (x : pyfloat) (k : Q) : bool :=
  match x with
  | Fin q => Qltb k q
  | PosInf => true
  | NegInf | NaN => false
  end.

Definition float_lt (x y : pyfloat) : bool :=
  match x, y with
  | NaN, _ | _, NaN => false
  | Fin a, Fin b => Qltb a b
  | NegInf, NegInf => false
  | NegInf, _ => true
  | _, PosInf => match x with PosInf => false | _ => true end
  | _, _ => false
  end.

(** [x * k] for a finite positive constant [k]. *)
Definition float_scale (x : pyfloat) (k : Q) : pyfloat :=
  match x with
  | Fin q => Fin (q * k)
  | other => other
  end.

Definition float_of_nat (n : nat) : pyfloat := Fin (inject_Z (Z.of_nat n)).
Definition float_of_Z (z : Z) : pyfloat := Fin (inject_Z z).
Definition float_of_bool (b : bool) : pyfloat := Fin (if b then 1 else 0).

(** The values an enrichment record can hold. *)
#[warnings="-register-all"]
Inductive pyval : Type :=
| VNone
| VBool (b : bool)
| VInt (z : Z)
| VFloat (f : pyfloat)
| VStr (s : string)
| VList (l : list pyval)
| VDict (d : list (string * pyval)).

(** Python truthiness, as used by [if enrichment_data:]. *)
Definition truthy (v : pyval) : bool :=
  match v with
  | VNone => false
  | VBool b => b
  | VInt z => negb (Z.eqb z 0)
  | VFloat (Fin q) => negb (Qeq_bool q 0)
  | VFloat _ => true
  | VStr s => negb (String.eqb s "")
  | VList l => match l with [] => false | _ => true end
  | VDict d => match d with [] => false | _ => true end
  end.

(** ** Dictionaries with string keys, in insertion order *)

Section Dict.
Context {V : Type}.

Fixpoint lookup (k : string) (d : list (string * V)) : option V :=
  match d with
  | [] => None
  | (k', v) :: r => if String.eqb k k' then Some v else lookup k r
  end.

(** [d[k]]: [KeyError] when the key is absent. *)
Definition getitem (d : list (string * V)) (k : string) : result V :=
  match lookup k d with
  | Some v => Ok v
  | None => Raise KeyError
  end.

Definition keys (d : list (string * V)) : list string := map fst d.
Definition values (d : list (string * V)) : list V := map snd d.
End Dict.

(** [v.get(k, default)]: only a dict has the method. *)
Definition py_get (v : pyval) (k : string) (default : pyval) : result pyval :=
  match v with
  | VDict d => Ok (match lookup k d with Some x => x | None => default end)
  | _ => Raise AttributeError
  end.

(** A feature vector as the source builds it: [Dict[str, float]]. *)
Definition features_dict : Type := list (string * pyfloat).

(** ** Verdicts, explanations and results *)

(** The verdict strings of [model.py].  ["unknown"] is what
    [verdict_map.get(prediction, "unknown")] yields for a class index other
    than 0 and 1; it has no place in the severity order. *)
Inductive verdict : Type := Benign | Suspicious | Malicious | Unknown.

Definition verdict_eqb (a b : verdict) : bool :=
  match a, b with
  | Benign, Benign | Suspicious, Suspicious
  | Malicious, Malicious | Unknown, Unknown => true
  | _, _ => false
  end.

(** benign < suspicious < malicious.  ["unknown"] is outside the order: the
    statements about severity exclude it, and the rank given to it here is
    never used. *)
Definition severity (v : verdict) : nat :=
  match v with
  | Benign => 0
  | Suspicious => 1
  | Malicious => 2
  | Unknown => 0
  end.

(** One entry of [top_features]. *)
Record explanation : Type := mkExplanation {
  name : string;
  value : pyfloat;
  contribution : pyfloat
}.

(** The [additional_info] dict of a result: the five diagnostics of the
    normal path, the six entries of the whitelist path, or [{}] when the
    diagnostics block raised. *)
Record diagnostics : Type := mkDiagnostics {
  domain_age_days : option Z;
  dns_valid : option bool;
  is_https : bool;
  impersonated_brand : option string;
  server_location : string
}.

Inductive additional_info : Type :=
| InfoEmpty
| Info (d : diagnostics)
| InfoWhitelisted (domain : string) (location : string)
                  (age : option Z) (dns : option bool) (https : bool).

(** [additional_info.get("domain_age_days")] and its siblings: only the
    normal path reaches the escalation pass, so only its dict is read. *)
Definition info_age (ai : additional_info) : option Z :=
  match ai with Info d => domain_age_days d | _ => None end.

Definition info_brand (ai : additional_info) : option string :=
  match ai with Info d => impersonated_brand d | _ => None end.

Definition info_dns (ai : additional_info) : option bool :=
  match ai with Info d => dns_valid d | _ => None end.

(** The dict [predict] returns. *)
Record prediction : Type := mkPrediction {
  verdict_of : verdict;
  confidence_of : Q;
  model_version_of : string;
  top_features_of : list explanation;
  all_features_of : features_dict;
  additional_info_of : additional_info
}.

(** ** Edit distance

    [Levenshtein.distance] of the python-Levenshtein package: the least
    number of single-character insertions, deletions and substitutions that
    turn one string into the other. *)
Fixpoint distance (s : string) : string -> nat :=
  fix distance_s (t : string) : nat :=
    match s, t with
    | EmptyString, _ => String.length t
    | _, EmptyString => String.length s
    | String a s', String b t' =>
        Nat.min (S (distance s' t))
          (Nat.min (S (distance_s t'))
                   ((if Ascii.eqb a b then 0 else 1) + distance s' t'))
    end.

(** The same distance by dynamic programming over rows, as the package
    computes it; [distance_rows s t] lists the distance from [s] to every
    suffix of [t], longest suffix first. *)
Fixpoint base_row (t : string) : list nat :=
  match t with
  | EmptyString => [0]
  | String _ t' => String.length t :: base_row t'
  end.

Fixpoint next_row (a : ascii) (t : string) (old : list nat) : list nat :=
  match t, old with
  | String b t', o :: old' =>
      let new' := next_row a t' old' in
      Nat.min (S o)
        (Nat.min (S (hd 0 new'))
                 ((if Ascii.eqb a b then 0 else 1) + hd 0 old')) :: new'
  | _, _ => [S (hd 0 old)]
  end.

Fixpoint distance_rows (s t : string) : list nat :=
  match s with
  | EmptyString => base_row t
  | String a s' => next_row a t (distance_rows s' t)
  end.

Definition distance_dp (s t : string) : nat := hd 0 (distance_rows s t).

(** ** [PhishingDetector._check_brand_impersonation], lines 319-348

    The body of the [try], from the lower-cased [netloc] on.  [dist] is the
    edit-distance function in use. *)
Section BrandCheck.
Variable dist : string -> string -> nat.

(** Lines 319-322: lower-case, then drop one leading ["www."]. *)
Definition strip_www (netloc : string) : string :=
  let domain := lower netloc in
  if startswith domain "www." then drop 4 domain else domain.

(** Lines 343-347: the test of one legitimate domain. *)
Definition typosquats (domain leg_domain : string) : bool :=
  let leg_base := first_field "." leg_domain in
  let domain_base := first_field "." domain in
  let d := dist domain_base leg_base in
  (0 <? d)%nat && (d <=? 2)%nat && (4 <? String.length domain_base)%nat.

(** Lines 329-348: the loop over the brand table. *)
Fixpoint brand_loop (domain : string) (brands : list (string * list string))
  : option string :=
  match brands with
  | [] => None
  | (brand, legitimate_domains) :: rest =>
      if mem domain legitimate_domains then brand_loop domain rest
      else if contains brand domain then Some brand
      else if existsb (typosquats domain) legitimate_domains then Some brand
      else brand_loop domain rest
  end.

Definition brand_of_netloc (netloc : string) : option string :=
  let domain := strip_www netloc in
  if mem domain WHITELIST then None
  else brand_loop domain TARGET_BRANDS.
End BrandCheck.

(** The detector with the Levenshtein package in place. *)
Definition check_brand (netloc : string) : option string :=
  brand_of_netloc distance netloc.

(** ** [PhishingDetector.predict], lines 244-282: the escalation pass *)

(** The three locals the pass updates. *)
Record pass_state : Type := mkState {
  cur_verdict : verdict;
  cur_confidence : Q;
  cur_top_features : list explanation
}.

Definition insert_front (e : explanation) (st : pass_state) (v : verdict) (c : Q)
  : pass_state :=
  mkState v c (e :: cur_top_features st).

(** Lines 245-254. *)
Definition new_domain_step (ai : additional_info) (st : pass_state) : pass_state :=
  match info_age ai with
  | Some age =>
      if (age <? 30)%Z then
        match cur_verdict st with
        | Benign =>
            insert_front
              (mkExplanation "newly_registered_domain" (float_of_Z age) (Fin 0.5))
              st Suspicious 0.65
        | Suspicious =>
            insert_front
              (mkExplanation "newly_registered_domain" (float_of_Z age) (Fin 0.8))
              st Malicious (Qmin (cur_confidence st + 0.2) 0.99)
        | _ => st
        end
      else st
  | None => st
  end.

(** Lines 257-261.  The guard is the truthiness of the reported brand. *)
Definition brand_step (ai : additional_info) (st : pass_state) : pass_state :=
  match info_brand ai with
  | Some brand =>
      if String.eqb brand "" then st
      else insert_front
             (mkExplanation ("impersonates_" ++ brand) (Fin 1) (Fin 0.9))
             st Malicious 0.95
  | None => st
  end.

(** Lines 264-268: [dns_valid is False]. *)
Definition dns_step (ai : additional_info) (st : pass_state) : pass_state :=
  match info_dns ai with
  | Some false =>
      insert_front (mkExplanation "invalid_dns" (Fin 1) (Fin 0.8)) st Malicious 0.9
  | _ => st
  end.

(** Lines 271-282.  [content_score] is the value of [_analyze_content(url)],
    which the source computes only when the guard holds. *)
Definition content_step (available : bool) (content_score : Z) (st : pass_state)
  : pass_state :=
  if available && negb (verdict_eqb (cur_verdict st) Malicious) then
    if (content_score >? 0)%Z then
      if (content_score >=? 2)%Z then
        insert_front
          (mkExplanation "suspicious_content" (float_of_Z content_score) (Fin 0.7))
          st Malicious (Qmax (cur_confidence st) 0.9)
      else
        insert_front
          (mkExplanation "suspicious_content" (float_of_Z content_score) (Fin 0.5))
          st Suspicious (Qmax (cur_confidence st) 0.7)
    else st
  else st.

Definition escalate (ai : additional_info) (available : bool) (content_score : Z)
    (st : pass_state) : pass_state :=
  content_step available content_score
    (dns_step ai (brand_step ai (new_domain_step ai st))).

(** ** [PhishingDetector._mock_predict], lines 441-484 *)

(** Lines 443-450. *)
Definition mock_score (features : features_dict) : result Z :=
  (sk <- getitem features "suspicious_keywords" ;;
   sh <- getitem features "is_shortened" ;;
   ip <- getitem features "has_ip_address" ;;
   ul <- getitem features "url_length" ;;
   dd <- getitem features "domain_dots" ;;
   Ok ((if float_gt sk 0 then 2 else 0)
       + (if float_gt sh 0 then 1 else 0)
       + (if float_gt ip 0 then 3 else 0)
       + (if float_gt ul 75 then 1 else 0)
       + (if float_gt dd 3 then 1 else 0))%Z)%py.

(** Lines 455-463.  [rnd] is the value of [random.random()]. *)
Definition mock_verdict (score : Z) (rnd : Q) : verdict * Q :=
  if (score >=? 2)%Z then (Malicious, Qmin (0.6 + inject_Z score * 0.1) 0.99)
  else if (score >=? 1)%Z then (Suspicious, 0.65%Q)
  else (Benign, (0.85 + rnd * 0.1)%Q).

(** [l.sort(key=contribution, reverse=True)]: largest first, entries of
    equal contribution in their original order.  [insert_desc e l] puts [e],
    which stood before the entries of [l], after those of a strictly larger
    contribution only. *)
Fixpoint insert_desc (e : explanation) (l : list explanation) : list explanation :=
  match l with
  | [] => [e]
  | x :: r =>
      if float_lt (contribution e) (contribution x) then x :: insert_desc e r
      else e :: l
  end.

Definition sort_desc (l : list explanation) : list explanation :=
  fold_right insert_desc [] l.

(** Lines 466-475. *)
Definition mock_top_features (features : features_dict) : list explanation :=
  sort_desc
    (map (fun '(n, v) => mkExplanation n v (float_scale v 0.5))
         (filter (fun '(_, v) => float_gt v 0) features)).

Definition _mock_predict (model_version : string) (rnd : Q)
    (features : features_dict) (ai : additional_info) : result prediction :=
  (score <- mock_score features ;;
   let '(v, c) := mock_verdict score rnd in
   Ok (mkPrediction v c (model_version ++ "-mock")
         (firstn 5 (mock_top_features features)) features ai))%py.

(** ** The collaborators of the detector *)

(** What [features.py] and [model.py] read of [urlparse(url)]. *)
Record ParseResult : Type := mkParse {
  netloc : string;
  path : string;
  query : string
}.

Inductive rdtype : Type := RdA | RdMX.

(** A WHOIS creation date: a naive [datetime], given by its age in days at
    the time of the call ([(datetime.now() - creation_date).days]); a
    timezone-aware [datetime], which cannot be subtracted from the naive
    [datetime.now()] (the subtraction raises [TypeError]); or a value of
    another type. *)
Inductive pydate : Type :=
| DateTime (age_days : Z)
| AwareDateTime
| NotDateTime.

Inductive creation_date : Type :=
| CdSingle (d : pydate)
| CdList (l : list pydate).

(** The JSON body of an ip-api answer, as far as it is read. *)
Record geo_data : Type := mkGeoData {
  geo_status : option string;
  geo_country : option string;
  geo_country_code : option string
}.

Record geo_response : Type := mkGeoResponse {
  geo_status_code : Z;
  geo_json : result geo_data
}.

(** A fetched page after [BeautifulSoup] parsed it: whether some form holds
    an [input] of type password, and [soup.title.string] (empty when the
    page has no title). *)
Record page : Type := mkPage {
  page_status_code : Z;
  page_has_password_field : bool;
  page_title : string
}.

(** The trained model and its scaler, as [joblib] loaded them.  [predict]
    gives the first entry of [model.predict(x)], [predict_proba] the first
    row of [model.predict_proba(x)]. *)
Record Model : Type := mkModel {
  predict_class : list pyfloat -> result Z;
  predict_proba : list pyfloat -> result (list Q);
  feature_importances_ : option (list Q)
}.

Record Scaler : Type := mkScaler {
  transform : list pyfloat -> result (list pyfloat)
}.

Record World : Type := mkWorld {
  (** [urllib.parse.urlparse]; it raises [ValueError] on some inputs. *)
  urlparse : string -> result ParseResult;
  (** [urllib.parse.parse_qs]: the dict of a query string. *)
  parse_qs : string -> list (string * list string);
  (** [math.log2], called on positive arguments only. *)
  log2 : Q -> Q;
  (** [float(s)] for a string [s]. *)
  float_of_str : string -> result pyfloat;
  (** [dns.resolver.resolve(domain, rdtype)]: an answer or an exception. *)
  dns_resolve : string -> rdtype -> result unit;
  (** [whois.whois(domain).creation_date] *)
  whois_creation_date : string -> result creation_date;
  (** [requests.get("http://ip-api.com/json/" + domain, timeout=1.5)] *)
  get_geo : string -> result geo_response;
  (** [requests.get(url, timeout=3, verify=False)], parsed *)
  get_page : string -> result page;
  (** the value of [random.random()] in this call *)
  random_random : Q;
  WHOIS_AVAILABLE : bool;
  LEVENSHTEIN_AVAILABLE : bool;
  DNS_AVAILABLE : bool;
  CONTENT_ANALYSIS_AVAILABLE : bool;
  ML_AVAILABLE : bool;
  (** [self.model], [self.scaler]: [None] when no model was loaded *)
  model : option Model;
  scaler : option Scaler;
  (** [settings.MODEL_VERSION] *)
  model_version : string
}.

(** ** [features.py]: class [FeatureExtractor] *)

Definition SUSPICIOUS_KEYWORDS : list string :=
  [ "login"; "signin"; "account"; "verify"; "update"; "confirm";
    "secure"; "banking"; "paypal"; "ebay"; "amazon"; "apple";
    "microsoft"; "google"; "password"; "credential"; "suspend" ].

Definition URL_SHORTENERS : list string :=
  [ "bit.ly"; "goo.gl"; "tinyurl.com"; "t.co"; "ow.ly";
    "buff.ly"; "is.gd"; "cli.gs"; "tiny.cc" ].

(** [self.feature_names] *)
Definition feature_names : list string :=
  [ "url_length"; "domain_dots"; "hyphen_count"; "path_depth";
    "query_param_count"; "digit_ratio"; "has_ip_address";
    "char_entropy"; "suspicious_keywords"; "is_shortened";
    "domain_age_days"; "registration_length_years"; "has_https";
    "valid_ssl"; "cert_age_days"; "subdomain_count";
    "high_risk_country"; "as_reputation_score";
    "form_count"; "has_password_field"; "typosquatting_score";
    "gsb_threat_type"; "vt_positives"; "in_phishing_list"; "ip_blocklisted" ].

(** [d[k] = v]: in place when the key is present, appended otherwise. *)
Fixpoint setitem (d : features_dict) (k : string) (v : pyfloat) : features_dict :=
  match d with
  | [] => [(k, v)]
  | (k', v') :: r =>
      if String.eqb k k' then (k', v) :: r else (k', v') :: setitem r k v
  end.

(** [d.update(e)] *)
Definition update (d e : features_dict) : features_dict :=
  fold_left (fun acc kv => setitem acc (fst kv) (snd kv)) e d.

(** [_digit_ratio], lines 166-171 *)
Definition count_digits (s : string) : nat :=
  List.length (filter is_digit (list_ascii_of_string s)).

Definition _digit_ratio (url : string) : pyfloat :=
  if (String.length url =? 0)%nat then Fin 0
  else Fin (inject_Z (Z.of_nat (count_digits url))
            / inject_Z (Z.of_nat (String.length url))).

(** [_has_ip_address], lines 173-185.  A matcher returns the remainders of
    the input after each way of matching. *)
Fixpoint match_digits (n : nat) (s : string) : list string :=
  match n, s with
  | S n', String c r => if is_digit c then r :: match_digits n' r else []
  | _, _ => []
  end.

Definition match_dot (s : string) : list string :=
  match s with
  | String c r => if Ascii.eqb c "." then [r] else []
  | EmptyString => []
  end.

(** [\d{1,3}\.\d{1,3}\.\d{1,3}\.\d{1,3}] matched at the start of [s] *)
Definition match_ipv4_here (s : string) : bool :=
  let octet := match_digits 3 in
  let step := fun l => flat_map octet (flat_map match_dot l) in
  match step (step (step (octet s))) with
  | [] => false
  | _ => true
  end.

(** [re.search]: a match at some position *)
Fixpoint search (here : string -> bool) (s : string) : bool :=
  if here s then true
  else match s with
       | EmptyString => false
       | String _ r => search here r
       end.

Definition is_hex_or_colon (c : ascii) : bool :=
  let n := nat_of_ascii c in
  is_digit c
  || ((97 <=? n)%nat && (n <=? 102)%nat)
  || ((65 <=? n)%nat && (n <=? 70)%nat)
  || Ascii.eqb c ":".

(** [[0-9a-fA-F:]{10,}] matched at the start of [s] *)
Fixpoint match_class_run (n : nat) (s : string) : bool :=
  match n with
  | O => true
  | S n' =>
      match s with
      | String c r => is_hex_or_colon c && match_class_run n' r
      | EmptyString => false
      end
  end.

Definition _has_ip_address (domain : string) : nat :=
  if search match_ipv4_here domain then 1
  else if search (match_class_run 10) domain then 1
  else 0.

(** [collections.Counter(s)]: the characters of [s] with their counts, in
    order of first occurrence. *)
Fixpoint counter_add (c : ascii) (l : list (ascii * nat)) : list (ascii * nat) :=
  match l with
  | [] => [(c, 1)]
  | (a, n) :: r =>
      if Ascii.eqb a c then (a, S n) :: r else (a, n) :: counter_add c r
  end.

Definition Counter (s : string) : list (ascii * nat) :=
  fold_left (fun acc c => counter_add c acc) (list_ascii_of_string s) [].

Definition Qsum (l : list Q) : Q := fold_left Qplus l 0%Q.

(** [_shannon_entropy], lines 187-199 *)
Definition _shannon_entropy (w : World) (s : string) : pyfloat :=
  if (String.length s =? 0)%nat then Fin 0
  else
    let counts := Counter s in
    let probs :=
      map (fun an => inject_Z (Z.of_nat (snd an))
                     / inject_Z (Z.of_nat (String.length s)))%Q counts in
    Fin (- Qsum (map (fun p => p * log2 w p)%Q (filter (fun p => Qltb 0 p) probs))).

(** [_count_suspicious_keywords], lines 201-205 *)
Definition _count_suspicious_keywords (url : string) : nat :=
  let url_lower := lower url in
  List.length (filter (fun keyword => contains keyword url_lower) SUSPICIOUS_KEYWORDS).

(** [_is_shortened], lines 207-210 *)
Definition _is_shortened (domain : string) : nat :=
  let domain_lower := lower domain in
  if existsb (fun shortener => contains shortener domain_lower) URL_SHORTENERS
  then 1 else 0.

(** [_extract_lexical], lines 87-122 *)
Definition _extract_lexical (w : World) (url : string) (parsed : ParseResult)
  : features_dict :=
  let path_parts :=
    filter (fun p => negb (String.eqb p "")) (split "/" (path parsed)) in
  [ ("url_length", float_of_nat (String.length url));
    ("domain_dots", float_of_nat (count_char "." (netloc parsed)));
    ("hyphen_count", float_of_nat (count_char "-" url));
    ("path_depth", float_of_nat (List.length path_parts));
    ("query_param_count", float_of_nat (List.length (parse_qs w (query parsed))));
    ("digit_ratio", _digit_ratio url);
    ("has_ip_address", float_of_nat (_has_ip_address (netloc parsed)));
    ("char_entropy", _shannon_entropy w (netloc parsed));
    ("suspicious_keywords", float_of_nat (_count_suspicious_keywords url));
    ("is_shortened", float_of_nat (_is_shortened (netloc parsed))) ].

(** [float(x)].  An [int] converts when it is below the overflow threshold
    of a double. *)
Definition float_int_limit : Z := 2 ^ 1024 - 2 ^ 970.

Definition py_float (w : World) (v : pyval) : result pyfloat :=
  match v with
  | VNone => Raise TypeError
  | VBool b => Ok (float_of_bool b)
  | VInt z =>
      if (Z.abs z <? float_int_limit)%Z then Ok (float_of_Z z)
      else Raise OverflowError
  | VFloat f => Ok f
  | VStr s => float_of_str w s
  | VList _ | VDict _ => Raise TypeError
  end.

(** [float(section.get(field, default))] *)
Definition field (w : World) (section : pyval) (k : string) (default : pyval)
  : result pyfloat :=
  (x <- py_get section k default ;; py_float w x)%py.

(** [_extract_enriched], lines 124-162 *)
Definition _extract_enriched (w : World) (enrichment_data : pyval)
  : result features_dict :=
  (whois_data <- py_get enrichment_data "whois" (VDict []) ;;
   v1 <- field w whois_data "domain_age_days" (VInt 0) ;;
   v2 <- field w whois_data "registration_length_years" (VInt 0) ;;
   ssl_data <- py_get enrichment_data "ssl" (VDict []) ;;
   v3 <- field w ssl_data "has_https" (VInt 0) ;;
   v4 <- field w ssl_data "valid_ssl" (VInt 0) ;;
   v5 <- field w ssl_data "cert_age_days" (VInt 0) ;;
   dns_data <- py_get enrichment_data "dns" (VDict []) ;;
   v6 <- field w dns_data "subdomain_count" (VInt 0) ;;
   geo_data <- py_get enrichment_data "geo" (VDict []) ;;
   v7 <- field w geo_data "high_risk_country" (VInt 0) ;;
   v8 <- field w geo_data "as_reputation_score" (VFloat (Fin 0.5)) ;;
   content_data <- py_get enrichment_data "content" (VDict []) ;;
   v9 <- field w content_data "form_count" (VInt 0) ;;
   v10 <- field w content_data "has_password_field" (VInt 0) ;;
   v11 <- field w content_data "typosquatting_score" (VInt 0) ;;
   gsb_data <- py_get enrichment_data "google_safe_browsing" (VDict []) ;;
   v12 <- field w gsb_data "threat_type_code" (VInt 0) ;;
   vt_data <- py_get enrichment_data "virustotal" (VDict []) ;;
   v13 <- field w vt_data "positives" (VInt 0) ;;
   blocklist_data <- py_get enrichment_data "blocklists" (VDict []) ;;
   v14 <- field w blocklist_data "in_phishing_list" (VInt 0) ;;
   v15 <- field w blocklist_data "ip_blocklisted" (VInt 0) ;;
   Ok [ ("domain_age_days", v1); ("registration_length_years", v2);
        ("has_https", v3); ("valid_ssl", v4); ("cert_age_days", v5);
        ("subdomain_count", v6);
        ("high_risk_country", v7); ("as_reputation_score", v8);
        ("form_count", v9); ("has_password_field", v10);
        ("typosquatting_score", v11);
        ("gsb_threat_type", v12); ("vt_positives", v13);
        ("in_phishing_list", v14); ("ip_blocklisted", v15) ])%py.

(** The [except] branch of [extract_all], line 85 *)
Definition zero_features : features_dict :=
  map (fun n => (n, Fin 0)) feature_names.

(** The body of the [try] of [extract_all], lines 65-80 *)
Definition extract_all_body (w : World) (url : string) (enrichment_data : pyval)
  : result features_dict :=
  (parsed <- urlparse w url ;;
   let features := update [] (_extract_lexical w url parsed) in
   if truthy enrichment_data then
     enriched <- _extract_enriched w enrichment_data ;;
     Ok (update features enriched)
   else
     Ok (fold_left (fun acc feature_name => setitem acc feature_name (Fin 0))
                   (skipn 10 feature_names) features))%py.

(** [extract_all], lines 53-85 *)
Definition extract_all (w : World) (url : string) (enrichment_data : pyval)
  : features_dict :=
  match extract_all_body w url enrichment_data with
  | Ok features => features
  | Raise _ => zero_features
  end.

(** ** [model.py]: the diagnostics of [PhishingDetector] *)

(** [_get_domain_age_days], lines 298-314 *)
Definition _get_domain_age_days (w : World) (url : string) : option Z :=
  match
    (parsed <- urlparse w url ;;
     creation <- whois_creation_date w (netloc parsed) ;;
     first <- match creation with
              | CdList [] => Raise IndexError
              | CdList (d :: _) => Ok d
              | CdSingle d => Ok d
              end ;;
     match first with
     | DateTime age => Ok (Some age)
     | AwareDateTime => Raise TypeError
     | NotDateTime => Ok None
     end)%py
  with
  | Ok r => r
  | Raise _ => None
  end.

(** [_check_brand_impersonation], lines 316-352 *)
Definition _check_brand_impersonation (w : World) (url : string) : option string :=
  match urlparse w url with
  | Ok parsed => check_brand (netloc parsed)
  | Raise _ => None
  end.

(** [_check_dns], lines 354-372.  Each lookup sits in its own [try] with a
    bare [except]; the outer handler is reached from [urlparse] alone. *)
Definition _check_dns (w : World) (url : string) : bool :=
  match urlparse w url with
  | Ok parsed =>
      let domain := netloc parsed in
      match dns_resolve w domain RdA with
      | Ok _ => true
      | Raise _ =>
          match dns_resolve w domain RdMX with
          | Ok _ => true
          | Raise _ => false
          end
      end
  | Raise _ => true
  end.

(** Lines 407-417 of [_analyze_content]: one point for every brand that the
    title names while no legitimate domain of it occurs in the host. *)
Definition title_brand_hits (title domain : string) : Z :=
  let title_lower := lower title in
  fold_left
    (fun score bl =>
       if contains (fst bl) title_lower then
         if existsb (fun leg_domain => contains leg_domain domain) (snd bl)
         then score else (score + 1)%Z
       else score)
    TARGET_BRANDS 0%Z.

(** [_analyze_content], lines 374-424.  An exception leaves the score at
    what was added before it. *)
Definition _analyze_content (w : World) (url : string) : Z :=
  match get_page w url with
  | Raise _ => 0%Z
  | Ok response =>
      if negb (page_status_code response =? 200)%Z then 0%Z
      else
        let score :=
          if page_has_password_field response then
            if negb (startswith url "https") then 2%Z else 1%Z
          else 0%Z in
        match urlparse w url with
        | Raise _ => score
        | Ok parsed =>
            if negb (String.eqb (page_title response) "") then
              (score + title_brand_hits (page_title response) (netloc parsed))%Z
            else score
        end
  end.

Definition show (o : option string) : string :=
  match o with Some s => s | None => "None" end.

(** [_get_server_location], lines 426-439 *)
Definition _get_server_location (w : World) (domain : string) : string :=
  match get_geo w domain with
  | Ok response =>
      if (geo_status_code response =? 200)%Z then
        match geo_json response with
        | Ok data =>
            match geo_status data with
            | Some st =>
                if String.eqb st "success" then
                  show (geo_country data) ++ " " ++ show (geo_country_code data)
                else "Unknown"
            | None => "Unknown"
            end
        | Raise _ => "Unknown"
        end
      else "Unknown"
  | Raise _ => "Unknown"
  end.

(** ** [model.py]: the scoring backend *)

Fixpoint mapM {A B : Type} (f : A -> result B) (l : list A) : result (list B) :=
  match l with
  | [] => Ok []
  | a :: r => (b <- f a ;; bs <- mapM f r ;; Ok (b :: bs))%py
  end.

Fixpoint enumerate_from {A : Type} (i : nat) (l : list A) : list (nat * A) :=
  match l with
  | [] => []
  | a :: r => (i, a) :: enumerate_from (S i) r
  end.

(** [a[i]] on an array: a negative index counts from the end. *)
Definition index {A : Type} (a : list A) (i : Z) : result A :=
  let n := Z.of_nat (List.length a) in
  let j := if (i <? 0)%Z then (i + n)%Z else i in
  if (j <? 0)%Z then Raise IndexError
  else match nth_error a (Z.to_nat j) with
       | Some x => Ok x
       | None => Raise IndexError
       end.

(** [verdict_map.get(prediction, "unknown")], lines 239-240 *)
Definition verdict_map (prediction : Z) : verdict :=
  if (prediction =? 0)%Z then Benign
  else if (prediction =? 1)%Z then Malicious
  else Unknown.

(** [_get_top_features], lines 486-500 *)
Definition _get_top_features (m : Model) (features : features_dict)
  : result (list explanation) :=
  match feature_importances_ m with
  | Some importances =>
      (l <- mapM (fun ix =>
                    v <- getitem features (snd ix) ;;
                    c <- match nth_error importances (fst ix) with
                         | Some c => Ok c
                         | None => Raise IndexError
                         end ;;
                    Ok (mkExplanation (snd ix) v (Fin c)))
                 (enumerate_from 0 feature_names) ;;
       Ok (firstn 5 (sort_desc l)))%py
  | None => Ok []
  end.

(** ** [PhishingDetector.predict], lines 167-296 *)

(** Lines 172-206: [Some] when the whitelist branch returns. *)
Definition whitelist_result (w : World) (url : string) : option prediction :=
  match urlparse w url with
  | Ok parsed =>
      let domain := lower (netloc parsed) in
      if is_whitelisted (netloc parsed) then
        let server_location := _get_server_location w domain in
        let age_days :=
          if WHOIS_AVAILABLE w then _get_domain_age_days w url else None in
        let dns_ok :=
          if DNS_AVAILABLE w then Some (_check_dns w url) else None in
        Some (mkPrediction Benign 1 (model_version w) [] []
                (InfoWhitelisted domain server_location age_days dns_ok
                                 (startswith url "https")))
      else None
  | Raise _ => None
  end.

(** Lines 212-227 *)
Definition gather_info (w : World) (url : string) : additional_info :=
  match urlparse w url with
  | Ok parsed =>
      let domain := lower (netloc parsed) in
      Info (mkDiagnostics
              (if WHOIS_AVAILABLE w then _get_domain_age_days w url else None)
              (if DNS_AVAILABLE w then Some (_check_dns w url) else None)
              (startswith url "https")
              (if LEVENSHTEIN_AVAILABLE w
               then _check_brand_impersonation w url else None)
              (_get_server_location w domain))
  | Raise _ => InfoEmpty
  end.

(** Lines 229-293: [Some] when the branch of the real model returns, [None]
    when there is no backend or the branch raised. *)
Definition model_result (w : World) (url : string) (features : features_dict)
    (ai : additional_info) : option prediction :=
  match model w, scaler w, ML_AVAILABLE w with
  | Some m, Some sc, true =>
      match
        (feature_array <- mapM (getitem features) feature_names ;;
         feature_array_scaled <- transform sc feature_array ;;
         prediction <- predict_class m feature_array_scaled ;;
         probabilities <- predict_proba m feature_array_scaled ;;
         confidence <- index probabilities prediction ;;
         top_features <- _get_top_features m features ;;
         let st :=
           escalate ai (CONTENT_ANALYSIS_AVAILABLE w) (_analyze_content w url)
                    (mkState (verdict_map prediction) confidence top_features) in
         Ok (mkPrediction (cur_verdict st) (cur_confidence st) (model_version w)
               (cur_top_features st) features ai))%py
      with
      | Ok r => Some r
      | Raise _ => None
      end
  | _, _, _ => None
  end.

Definition predict (w : World) (url : string) (enrichment_data : pyval)
  : result prediction :=
  match whitelist_result w url with
  | Some r => Ok r
  | None =>
      let features := extract_all w url enrichment_data in
      let ai := gather_info w url in
      match model_result w url features ai with
      | Some r => Ok r
      | None => _mock_predict (model_version w) (random_random w) features ai
      end
  end.

(** ** A reference world

    A concrete instance of the collaborators, for evaluating the detector on
    examples: a splitter for plain ASCII URLs of the shape
    [scheme://host/path?query#fragment], a resolver and a WHOIS service that
    are parameters, no trained model. *)

(** The prefix of [s] before the first character satisfying [stop], and the
    rest from that character on. *)
Fixpoint break_at (stop : ascii -> bool) (s : string) : string * string :=
  match s with
  | EmptyString => (EmptyString, EmptyString)
  | String c r =>
      if stop c then (EmptyString, s)
      else let '(a, b) := break_at stop r in (String c a, b)
  end.

Definition one_of (cs : string) (c : ascii) : bool :=
  existsb (Ascii.eqb c) (list_ascii_of_string cs).

Definition is_scheme_char (c : ascii) : bool :=
  let n := nat_of_ascii c in
  is_digit c || is_upper c || ((97 <=? n)%nat && (n <=? 122)%nat) || one_of "+-." c.

Definition is_alpha (c : ascii) : bool :=
  let n := nat_of_ascii c in
  is_upper c || ((97 <=? n)%nat && (n <=? 122)%nat).

Definition plain_urlparse (url : string) : result ParseResult :=
  let '(head, tail) := break_at (one_of ":") url in
  let rest :=
    match head, tail with
    | String c _, String _ after =>
        if is_alpha c && forallb is_scheme_char (list_ascii_of_string head)
        then after else url
    | _, _ => url
    end in
  let '(host, rest') :=
    if startswith rest "//" then break_at (one_of "/?#") (drop 2 rest)
    else (EmptyString, rest) in
  if xorb (contains "[" host) (contains "]" host) then Raise ValueError
  else
    let '(before_fragment, _) := break_at (one_of "#") rest' in
    let '(p, q) := break_at (one_of "?") before_fragment in
    Ok (mkParse host p (drop 1 q)).

(** [parse_qs] on a query without percent-escapes and without [+]: pairs
    are separated by [&], a pair without [=] or with an empty value is
    dropped, the values of one name are collected. *)
Fixpoint add_value (d : list (string * list string)) (n v : string)
  : list (string * list string) :=
  match d with
  | [] => [(n, [v])]
  | (n', vs) :: r =>
      if String.eqb n n' then (n', (vs ++ [v])%list) :: r else (n', vs) :: add_value r n v
  end.

Definition plain_parse_qs (qs : string) : list (string * list string) :=
  fold_left
    (fun acc name_value =>
       let '(n, v) := break_at (one_of "=") name_value in
       if String.eqb (drop 1 v) "" then acc else add_value acc n (drop 1 v))
    (split "&" qs) [].

(** The world without network and without a trained model: the resolver and
    the WHOIS service are parameters, every HTTP request fails.  [log2] and
    [float_of_str] are never reached on a URL with an empty host and an
    enrichment record without strings, which is where this world is used. *)
Definition reference_world (resolve : string -> rdtype -> result unit)
    (creation : string -> result creation_date) : World :=
  {| urlparse := plain_urlparse;
     parse_qs := plain_parse_qs;
     log2 := fun _ => 0%Q;
     float_of_str := fun _ => Raise ValueError;
     dns_resolve := resolve;
     whois_creation_date := creation;
     get_geo := fun _ => Raise ConnectionError;
     get_page := fun _ => Raise ConnectionError;
     random_random := 0%Q;
     WHOIS_AVAILABLE := true;
     LEVENSHTEIN_AVAILABLE := true;
     DNS_AVAILABLE := true;
     CONTENT_ANALYSIS_AVAILABLE := true;
     ML_AVAILABLE := false;
     model := None;
     scaler := None;
     model_version := "v1.0.0" |}.

(** ** Notions used to state the properties *)

(** The keyword rule of the brand detector, on its own: some brand token
    occurs in the domain, and the domain is not one of that brand's
    legitimate domains. *)
Definition keyword_flagged (domain : string) : bool :=
  existsb (fun bl => negb (mem domain (snd bl)) && contains (fst bl) domain)
          TARGET_BRANDS.

(** The typosquatting rule on its own: the first brand of the table, in
    order, that has a legitimate domain within the distance bounds. *)
Definition first_typosquatted (dist : string -> string -> nat) (domain : string)
  : option string :=
  option_map fst
    (find (fun bl => existsb (typosquats dist domain) (snd bl)) TARGET_BRANDS).

(** Every legitimate domain of the brand table. *)
Definition legitimate_domains : list string := flat_map snd TARGET_BRANDS.

(** The suffixes of a string, longest first. *)
Fixpoint suffixes (t : string) : list string :=
  match t with
  | EmptyString => [EmptyString]
  | String _ t' => t :: suffixes t'
  end.

(** An enrichment record is free of non-finite numbers when no float in it
    is infinite or NaN and no string in it converts to such a float. *)
Fixpoint pyval_finite (w : World) (v : pyval) : bool :=
  match v with
  | VFloat f => is_finite f
  | VStr s =>
      match float_of_str w s with
      | Ok f => is_finite f
      | Raise _ => true
      end
  | VDict d =>
      (fix all (l : list (string * pyval)) : bool :=
         match l with
         | [] => true
         | (_, x) :: r => pyval_finite w x && all r
         end) d
  | _ => true
  end.

(** The risk sum of the mock scorer as the design states it. *)
Definition indicator (b : bool) : Z := if b then 1%Z else 0%Z.

Definition risk (sk sh ip ul dd : pyfloat) : Z :=
  (2 * indicator (float_gt sk 0) + 1 * indicator (float_gt sh 0)
   + 3 * indicator (float_gt ip 0) + 1 * indicator (float_gt ul 75)
   + 1 * indicator (float_gt dd 3))%Z.

(** The feature vector with [has_ip_address = 1], [url_length = 80] and
    every other feature 0. *)
Definition ip_and_long_url : features_dict :=
  map (fun n =>
         (n, if String.eqb n "has_ip_address" then Fin 1
             else if String.eqb n "url_length" then Fin 80
             else Fin 0))
      feature_names.

(** The world with every network lookup failing, and two enrichment
    records used in examples. *)
Definition network_down : World :=
  reference_world (fun _ _ => Raise LifetimeTimeout)
                  (fun _ => Raise ConnectionError).

Definition infinite_reputation : pyval :=
  VDict [("geo", VDict [("as_reputation_score", VFloat PosInf)])].

(** ** Notions used to state further properties *)

(** The string of [n] copies of [c]. *)
Fixpoint repeat_char (c : ascii) (n : nat) : string :=
  match n with
  | O => EmptyString
  | S n' => String c (repeat_char c n')
  end.

(** A group of one to three decimal digits. *)
Definition digit_group (g : string) : bool :=
  (1 <=? String.length g)%nat && (String.length g <=? 3)%nat
  && forallb is_digit (list_ascii_of_string g).

(** The sections [_extract_enriched] reads, and for each enriched feature
    the section, the field and the default it is read with. *)
Definition enrichment_sections : list string :=
  [ "whois"; "ssl"; "dns"; "geo"; "content";
    "google_safe_browsing"; "virustotal"; "blocklists" ].

Definition enriched_table : list (string * (string * (string * pyval))) :=
  [ ("domain_age_days", ("whois", ("domain_age_days", VInt 0)));
    ("registration_length_years", ("whois", ("registration_length_years", VInt 0)));
    ("has_https", ("ssl", ("has_https", VInt 0)));
    ("valid_ssl", ("ssl", ("valid_ssl", VInt 0)));
    ("cert_age_days", ("ssl", ("cert_age_days", VInt 0)));
    ("subdomain_count", ("dns", ("subdomain_count", VInt 0)));
    ("high_risk_country", ("geo", ("high_risk_country", VInt 0)));
    ("as_reputation_score", ("geo", ("as_reputation_score", VFloat (Fin 0.5))));
    ("form_count", ("content", ("form_count", VInt 0)));
    ("has_password_field", ("content", ("has_password_field", VInt 0)));
    ("typosquatting_score", ("content", ("typosquatting_score", VInt 0)));
    ("gsb_threat_type", ("google_safe_browsing", ("threat_type_code", VInt 0)));
    ("vt_positives", ("virustotal", ("positives", VInt 0)));
    ("in_phishing_list", ("blocklists", ("in_phishing_list", VInt 0)));
    ("ip_blocklisted", ("blocklists", ("ip_blocklisted", VInt 0))) ].

(** A value that has no [get] method. *)
Definition is_dict (v : pyval) : bool :=
  match v with VDict _ => true | _ => false end.

(** [a] does not rank below [b]: the order a descending sort leaves between
    neighbours. *)
Definition not_below (a b : explanation) : Prop :=
  float_lt (contribution a) (contribution b) = false.


(** A world that differs from [w] in what fetching a page gives, and one
    that differs in the scoring backend. *)
Definition with_page (w : World) (fetch : string -> result page) : World :=
  {| urlparse := urlparse w;
     parse_qs := parse_qs w;
     log2 := log2 w;
     float_of_str := float_of_str w;
     dns_resolve := dns_resolve w;
     whois_creation_date := whois_creation_date w;
     get_geo := get_geo w;
     get_page := fetch;
     random_random := random_random w;
     WHOIS_AVAILABLE := WHOIS_AVAILABLE w;
     LEVENSHTEIN_AVAILABLE := LEVENSHTEIN_AVAILABLE w;
     DNS_AVAILABLE := DNS_AVAILABLE w;
     CONTENT_ANALYSIS_AVAILABLE := CONTENT_ANALYSIS_AVAILABLE w;
     ML_AVAILABLE := ML_AVAILABLE w;
     model := model w;
     scaler := scaler w;
     model_version := model_version w |}.

Definition with_backend (w : World) (m : option Model) (sc : option Scaler)
    (available : bool) : World :=
  {| urlparse := urlparse w;
     parse_qs := parse_qs w;
     log2 := log2 w;
     float_of_str := float_of_str w;
     dns_resolve := dns_resolve w;
     whois_creation_date := whois_creation_date w;
     get_geo := get_geo w;
     get_page := get_page w;
     random_random := random_random w;
     WHOIS_AVAILABLE := WHOIS_AVAILABLE w;
     LEVENSHTEIN_AVAILABLE := LEVENSHTEIN_AVAILABLE w;
     DNS_AVAILABLE := DNS_AVAILABLE w;
     CONTENT_ANALYSIS_AVAILABLE := CONTENT_ANALYSIS_AVAILABLE w;
     ML_AVAILABLE := available;
     model := m;
     scaler := sc;
     model_version := model_version w |}.

(** A page with a login form whose title names two brands, and the world
    in which every fetch returns it. *)
Definition two_brand_login_page : page :=
  mkPage 200 true "PayPal and Google - sign in".

Definition login_page_world : World :=
  with_page network_down (fun _ => Ok two_brand_login_page).


(** A contribution that is a number. *)
Definition not_nan (e : explanation) : bool :=
  match contribution e with NaN => false | _ => true end.

(** The explanation the mock scorer builds for one feature. *)
Definition mock_explanation (kv : string * pyfloat) : explanation :=
  let '(n, v) := kv in mkExplanation n v (float_scale v 0.5).

Definition positive_feature (kv : string * pyfloat) : bool :=
  let '(_, v) := kv in float_gt v 0.

(** The five features the mock scorer reads. *)
Definition mock_inputs : list string :=
  [ "suspicious_keywords"; "is_shortened"; "has_ip_address";
    "url_length"; "domain_dots" ].

(** A backend whose model raises on every input behind a scaler that
    changes nothing, and the world that has it. *)
Definition broken_model : Model :=
  mkModel (fun _ => Raise OtherError) (fun _ => Ok []) None.

Definition identity_scaler : Scaler := mkScaler (fun x => Ok x).

Definition broken_backend_world : World :=
  with_backend network_down (Some broken_model) (Some identity_scaler) true.

(** A trained model with one importance per canonical feature, in the
    order of [feature_names] (three of them tie at 0.1), and a model whose
    importances stop after three features. *)
Definition ranked_importances : list Q :=
  [ 0.15; 0.05; 0.02; 0.03; 0.01; 0.04; 0.2; 0.1; 0.1; 0.05;
    0.1; 0; 0.05; 0; 0; 0; 0; 0.04; 0; 0; 0.06; 0; 0; 0; 0 ]%Q.

Definition ranked_model : Model :=
  mkModel (fun _ => Ok 1%Z) (fun _ => Ok [0.1; 0.2; 0.7]%Q)
          (Some ranked_importances).

Definition short_model : Model :=
  mkModel (fun _ => Ok 1%Z) (fun _ => Ok [0.1; 0.2; 0.7]%Q)
          (Some [0.5; 0.3; 0.2]%Q).


(** ** [PhishingDetector._load_model], lines 144-165

    What loading finds on disk: whether the model file exists, and what
    [joblib.load] gives for the model file and for the scaler file.  The
    result is the pair [(self.model, self.scaler)], both [None] at first. *)
Record Disk : Type := mkDisk {
  model_path_exists : bool;
  load_model_file : result Model;
  load_scaler_file : result Scaler
}.

Definition _load_model (ml_available : bool) (disk : Disk)
  : option Model * option Scaler :=
  if negb ml_available then (None, None)
  else if negb (model_path_exists disk) then (None, None)
  else match load_model_file disk with
       | Raise _ => (None, None)
       | Ok m =>
           match load_scaler_file disk with
           | Raise _ => (Some m, None)
           | Ok sc => (Some m, Some sc)
           end
       end.

(** A disk that holds the model file but no scaler file. *)
Definition disk_without_scaler : Disk :=
  mkDisk true (Ok broken_model) (Raise OtherError).

(** * Properties *)

(** ** Strings and dictionaries *)

Lemma mem_In (x : string) (l : list string) : mem x l = true <-> In x l.
Proof.
  unfold mem. rewrite existsb_exists. split.
  - intros [y [Hy Heq]]. apply String.eqb_eq in Heq. now subst.
  - intros H. exists x. split; [assumption | apply String.eqb_refl].
Qed.

Lemma mem_false_not_In (x : string) (l : list string) :
  mem x l = false -> ~ In x l.
Proof.
  intros H Hin. apply mem_In in Hin. congruence.
Qed.

Lemma endswith_unfold (s suf : string) :
  endswith s suf =
  if String.eqb s suf then true
  else match s with
       | EmptyString => false
       | String _ r => endswith r suf
       end.
Proof. destruct s; reflexivity. Qed.

Lemma endswith_spec (s suf : string) :
  endswith s suf = true <-> exists pre, s = pre ++ suf.
Proof.
  induction s as [| c r IH]; rewrite endswith_unfold.
  - destruct (String.eqb_spec "" suf) as [E | E].
    + split; [intros _; exists ""; now rewrite <- E | reflexivity].
    + split; [discriminate |].
      intros [pre Hpre]. destruct pre; simpl in Hpre; [congruence | discriminate].
  - destruct (String.eqb_spec (String c r) suf) as [E | E].
    + split; [intros _; exists ""; now rewrite <- E | reflexivity].
    + rewrite IH. split.
      * intros [pre Hpre]. exists (String c pre). simpl. now rewrite Hpre.
      * intros [pre Hpre]. destruct pre as [| c' pre]; simpl in Hpre.
        -- congruence.
        -- exists pre. congruence.
Qed.

Lemma whitelist_lowercase :
  forall trusted, In trusted WHITELIST -> lower trusted = trusted.
Proof.
  assert (H : forallb (fun t => String.eqb (lower t) t) WHITELIST = true)
    by (vm_compute; reflexivity).
  rewrite forallb_forall in H.
  intros t Ht. apply String.eqb_eq. now apply H.
Qed.

(** ** The whitelist *)

(** C6: the whitelist test holds exactly when the lower-cased domain equals
    a trusted entry or ends with a dot followed by a trusted entry; it
    accepts ["accounts.google.com"] and rejects ["notgoogle.com"]. *)
Theorem whitelist_exact_or_subdomain :
  (forall domain : string,
      is_whitelisted domain = true <->
      exists trusted,
        In trusted WHITELIST /\
        (lower domain = lower trusted \/
         exists pre, lower domain = pre ++ "." ++ lower trusted))
  /\ is_whitelisted "accounts.google.com" = true
  /\ is_whitelisted "notgoogle.com" = false.
Proof.
  split; [| split; vm_compute; reflexivity].
  intros domain. unfold is_whitelisted.
  destruct (mem (lower domain) WHITELIST) eqn:Hmem.
  - split; [intros _ | reflexivity].
    apply mem_In in Hmem. exists (lower domain). split; [assumption |].
    left. now rewrite (whitelist_lowercase _ Hmem).
  - rewrite existsb_exists. split.
    + intros [t [Ht He]]. exists t. split; [assumption |].
      right. rewrite (whitelist_lowercase _ Ht). now apply endswith_spec.
    + intros [t [Ht [Heq | Hsuf]]]; rewrite (whitelist_lowercase _ Ht) in *.
      * exfalso. apply (mem_false_not_In _ _ Hmem). now rewrite Heq.
      * exists t. split; [assumption | now apply endswith_spec].
Qed.

(** ** Edit distance: the row algorithm computes [distance] *)

Lemma distance_nil_l (t : string) : distance "" t = String.length t.
Proof. destruct t; reflexivity. Qed.

Lemma distance_nil_r (s : string) : distance s "" = String.length s.
Proof. destruct s; reflexivity. Qed.

Lemma distance_cons_cons (a b : ascii) (s t : string) :
  distance (String a s) (String b t) =
  Nat.min (S (distance s (String b t)))
    (Nat.min (S (distance (String a s) t))
             ((if Ascii.eqb a b then 0 else 1) + distance s t)).
Proof. reflexivity. Qed.

Lemma hd_suffixes (f : string -> nat) (t : string) :
  hd 0 (map f (suffixes t)) = f t.
Proof. destruct t; reflexivity. Qed.

Lemma base_row_correct (t : string) :
  base_row t = map (distance "") (suffixes t).
Proof.
  induction t as [| b t IH]; [reflexivity |].
  cbn [base_row suffixes map]. rewrite IH. f_equal.
Qed.

Lemma next_row_correct (a : ascii) (s t : string) :
  next_row a t (map (distance s) (suffixes t)) =
  map (distance (String a s)) (suffixes t).
Proof.
  induction t as [| b t IH].
  - cbn. now rewrite distance_nil_r.
  - cbn [suffixes map next_row]. rewrite IH.
    rewrite !hd_suffixes, distance_cons_cons. reflexivity.
Qed.

Lemma distance_rows_correct (s t : string) :
  distance_rows s t = map (distance s) (suffixes t).
Proof.
  induction s as [| a s IH]; cbn [distance_rows].
  - apply base_row_correct.
  - rewrite IH. apply next_row_correct.
Qed.

Lemma distance_dp_correct (s t : string) : distance_dp s t = distance s t.
Proof.
  unfold distance_dp. rewrite distance_rows_correct. apply hd_suffixes.
Qed.

Lemma distance_sample :
  distance "kitten" "sitting" = 3 /\ distance "g0ogle" "google" = 1
  /\ distance "goooooogle" "google" = 4.
Proof. rewrite <- !distance_dp_correct. vm_compute. auto. Qed.

(** ** The brand detector does not depend on how the distance is computed *)

Section BrandExt.
Variables dist1 dist2 : string -> string -> nat.
Hypothesis dist_eq : forall s t, dist1 s t = dist2 s t.

Lemma typosquats_ext (d leg : string) :
  typosquats dist1 d leg = typosquats dist2 d leg.
Proof. unfold typosquats. now rewrite dist_eq. Qed.

Lemma existsb_typosquats_ext (d : string) (legit : list string) :
  existsb (typosquats dist1 d) legit = existsb (typosquats dist2 d) legit.
Proof.
  induction legit as [| l r IH]; [reflexivity |].
  cbn. now rewrite typosquats_ext, IH.
Qed.

Lemma brand_loop_ext (d : string) (brands : list (string * list string)) :
  brand_loop dist1 d brands = brand_loop dist2 d brands.
Proof.
  induction brands as [| [b legit] r IH]; [reflexivity |].
  cbn. now rewrite existsb_typosquats_ext, IH.
Qed.

Lemma brand_of_netloc_ext (netloc : string) :
  brand_of_netloc dist1 netloc = brand_of_netloc dist2 netloc.
Proof. unfold brand_of_netloc. now rewrite brand_loop_ext. Qed.

Lemma first_typosquatted_ext (d : string) :
  first_typosquatted dist1 d = first_typosquatted dist2 d.
Proof.
  unfold first_typosquatted. f_equal.
  induction TARGET_BRANDS as [| [b legit] r IH]; [reflexivity |].
  cbn. now rewrite existsb_typosquats_ext, IH.
Qed.
End BrandExt.

Lemma check_brand_dp (netloc : string) :
  check_brand netloc = brand_of_netloc distance_dp netloc.
Proof.
  unfold check_brand. apply brand_of_netloc_ext.
  intros s t. symmetry. apply distance_dp_correct.
Qed.

Lemma typosquats_dp (d leg : string) :
  typosquats distance d leg = typosquats distance_dp d leg.
Proof.
  apply typosquats_ext. intros s t. symmetry. apply distance_dp_correct.
Qed.

(** ** The brand detector *)

(** No whitelisted domain is within typosquatting distance of a brand. *)
Lemma whitelist_not_typosquatted (d : string) :
  In d WHITELIST -> first_typosquatted distance d = None.
Proof.
  assert (H : forallb (fun d => match first_typosquatted distance_dp d with
                                | None => true
                                | Some _ => false
                                end) WHITELIST = true)
    by (vm_compute; reflexivity).
  rewrite forallb_forall in H. intros Hd. specialize (H d Hd).
  rewrite (first_typosquatted_ext distance distance_dp)
    by (intros; symmetry; apply distance_dp_correct).
  destruct (first_typosquatted distance_dp d); [discriminate | reflexivity].
Qed.

(** A legitimate domain of a brand is not within typosquatting distance of
    that brand. *)
Lemma legitimate_not_typosquatted (b : string) (legit : list string) (d : string) :
  In (b, legit) TARGET_BRANDS -> In d legit ->
  existsb (typosquats distance d) legit = false.
Proof.
  assert (H : forallb
                (fun bl => forallb
                   (fun d => negb (existsb (typosquats distance_dp d) (snd bl)))
                   (snd bl)) TARGET_BRANDS = true)
    by (vm_compute; reflexivity).
  rewrite forallb_forall in H. intros Hb Hd.
  specialize (H _ Hb). cbn [snd] in H. rewrite forallb_forall in H.
  specialize (H _ Hd). apply negb_true_iff in H.
  rewrite <- H. apply existsb_typosquats_ext.
  intros s t. symmetry. apply distance_dp_correct.
Qed.

(** Without a keyword hit, and with the legitimate domains of each brand
    outside that brand's typosquatting range, the loop returns the first
    brand that has a legitimate domain in range. *)
Lemma brand_loop_first_typosquatted (d : string) (brands : list (string * list string)) :
  (forall b legit, In (b, legit) brands -> mem d legit = false ->
                   contains b d = false) ->
  (forall b legit, In (b, legit) brands -> mem d legit = true ->
                   existsb (typosquats distance d) legit = false) ->
  brand_loop distance d brands =
  option_map fst (find (fun bl => existsb (typosquats distance d) (snd bl)) brands).
Proof.
  induction brands as [| [b legit] r IH]; intros Hkw Hleg; [reflexivity |].
  cbn [brand_loop find snd].
  assert (IH' := IH (fun b' l' H => Hkw b' l' (or_intror H))
                    (fun b' l' H => Hleg b' l' (or_intror H))).
  destruct (mem d legit) eqn:Hmem.
  - rewrite (Hleg b legit (or_introl eq_refl) Hmem). exact IH'.
  - rewrite (Hkw b legit (or_introl eq_refl) Hmem).
    destruct (existsb (typosquats distance d) legit); [reflexivity | exact IH'].
Qed.

Lemma keyword_flagged_false (d b : string) (legit : list string) :
  keyword_flagged d = false -> In (b, legit) TARGET_BRANDS ->
  mem d legit = false -> contains b d = false.
Proof.
  unfold keyword_flagged. intros H Hin Hmem.
  destruct (contains b d) eqn:Hc; [| reflexivity].
  assert (E : existsb (fun bl => negb (mem d (snd bl)) && contains (fst bl) d)
                      TARGET_BRANDS = true).
  { apply existsb_exists. exists (b, legit). split; [assumption |].
    cbn [fst snd]. now rewrite Hmem, Hc. }
  congruence.
Qed.

Lemma check_brand_without_keyword (netloc : string) :
  keyword_flagged (strip_www netloc) = false ->
  check_brand netloc = first_typosquatted distance (strip_www netloc).
Proof.
  intros Hkw. unfold check_brand, brand_of_netloc.
  destruct (mem (strip_www netloc) WHITELIST) eqn:Hw.
  - symmetry. apply whitelist_not_typosquatted. now apply mem_In.
  - unfold first_typosquatted. apply brand_loop_first_typosquatted.
    + intros b legit Hin Hmem. now apply (keyword_flagged_false _ b legit).
    + intros b legit Hin Hmem.
      apply (legitimate_not_typosquatted b legit); [assumption | now apply mem_In].
Qed.

Lemma typosquats_bounds (d leg : string) :
  typosquats distance d leg = true <->
  0 < distance (first_field "." d) (first_field "." leg) <= 2
  /\ 4 < String.length (first_field "." d).
Proof.
  unfold typosquats. rewrite !andb_true_iff, !Nat.ltb_lt, Nat.leb_le. tauto.
Qed.

(** C7: for a domain the keyword rule does not flag, the detector returns
    the first brand of the table that has a legitimate domain whose first
    label is at edit distance 1 or 2 from the candidate's first label, the
    candidate's first label being longer than 4 characters, and returns
    none when there is no such brand; ["g0ogle.com"] gives ["google"] and
    ["goooooogle.com"] gives none. *)
Theorem typosquatting_rule :
  (forall netloc : string,
      let domain := strip_www netloc in
      keyword_flagged domain = false ->
      check_brand netloc = first_typosquatted distance domain
      /\ (forall brand, check_brand netloc = Some brand ->
            exists legit leg,
              In (brand, legit) TARGET_BRANDS /\ In leg legit /\
              0 < distance (first_field "." domain) (first_field "." leg) <= 2 /\
              4 < String.length (first_field "." domain))
      /\ ((exists brand legit leg,
              In (brand, legit) TARGET_BRANDS /\ In leg legit /\
              0 < distance (first_field "." domain) (first_field "." leg) <= 2 /\
              4 < String.length (first_field "." domain)) ->
          exists brand, check_brand netloc = Some brand))
  /\ check_brand "g0ogle.com" = Some "google"
  /\ check_brand "goooooogle.com" = None.
Proof.
  split; [| split; rewrite check_brand_dp; vm_compute; reflexivity].
  intros netloc domain Hkw.
  pose proof (check_brand_without_keyword netloc Hkw) as Heq.
  fold domain in Heq. split; [exact Heq | split].
  - intros brand Hb. rewrite Heq in Hb. unfold first_typosquatted in Hb.
    destruct (find _ TARGET_BRANDS) as [[b legit] |] eqn:Hf; [| discriminate].
    cbn in Hb. injection Hb as <-.
    apply find_some in Hf. destruct Hf as [Hin Hex]. cbn [snd] in Hex.
    apply existsb_exists in Hex. destruct Hex as [leg [Hleg Ht]].
    apply typosquats_bounds in Ht. exists legit, leg. tauto.
  - intros [brand [legit [leg [Hin [Hleg [Hd Hl]]]]]].
    rewrite Heq. unfold first_typosquatted.
    destruct (find _ TARGET_BRANDS) as [[b l] |] eqn:Hf.
    + exists b. reflexivity.
    + exfalso. pose proof (find_none _ _ Hf (brand, legit) Hin) as Hn.
      cbn [snd] in Hn.
      assert (E : existsb (typosquats distance domain) legit = true).
      { apply existsb_exists. exists leg. split; [assumption |].
        apply typosquats_bounds. tauto. }
      congruence.
Qed.

Lemma typosquatting_rule_witness :
  keyword_flagged (strip_www "g0ogle.com") = false
  /\ check_brand "g0ogle.com" = first_typosquatted distance (strip_www "g0ogle.com").
Proof.
  assert (H : keyword_flagged (strip_www "g0ogle.com") = false)
    by (vm_compute; reflexivity).
  split; [exact H |].
  exact (proj1 (proj1 typosquatting_rule "g0ogle.com" H)).
Defined.

(** C8: a domain that, once lower-cased and stripped of a leading ["www."],
    is a legitimate domain of some brand or is whitelisted (also one that is
    whitelisted before the stripping) is reported as no impersonation. *)
Theorem legitimate_or_whitelisted_not_flagged :
  forall netloc : string,
    In (strip_www netloc) legitimate_domains
    \/ In (strip_www netloc) WHITELIST
    \/ In (lower netloc) WHITELIST ->
    check_brand netloc = None.
Proof.
  assert (Hleg : forallb (fun d => match (if mem d WHITELIST then None
                                          else brand_loop distance_dp d TARGET_BRANDS)
                                   with None => true | Some _ => false end)
                         legitimate_domains = true)
    by (vm_compute; reflexivity).
  assert (Hwww : forallb (fun x => mem (if startswith x "www." then drop 4 x else x)
                                       WHITELIST) WHITELIST = true)
    by (vm_compute; reflexivity).
  rewrite forallb_forall in Hleg, Hwww.
  intros netloc H. rewrite check_brand_dp. unfold brand_of_netloc.
  destruct H as [H | [H | H]].
  - specialize (Hleg _ H).
    destruct (if mem (strip_www netloc) WHITELIST then None
              else brand_loop distance_dp (strip_www netloc) TARGET_BRANDS);
      [discriminate | reflexivity].
  - apply mem_In in H. now rewrite H.
  - specialize (Hwww _ H). unfold strip_www. cbv zeta. now rewrite Hwww.
Qed.

Lemma legitimate_or_whitelisted_not_flagged_witness :
  In (strip_www "WWW.Gmail.com") legitimate_domains
  /\ check_brand "WWW.Gmail.com" = None.
Proof.
  assert (H : In (strip_www "WWW.Gmail.com") legitimate_domains)
    by (vm_compute; tauto).
  split; [exact H |].
  exact (legitimate_or_whitelisted_not_flagged "WWW.Gmail.com" (or_introl H)).
Defined.

(** ** The escalation pass *)

Lemma new_domain_step_cases (ai : additional_info) (st : pass_state) :
  cur_verdict (new_domain_step ai st) = cur_verdict st
  \/ (cur_verdict st = Benign /\ cur_verdict (new_domain_step ai st) = Suspicious)
  \/ (cur_verdict st = Suspicious /\ cur_verdict (new_domain_step ai st) = Malicious).
Proof.
  unfold new_domain_step.
  destruct (info_age ai) as [age |]; [| now left].
  destruct (age <? 30)%Z; [| now left].
  destruct (cur_verdict st) eqn:Hv; cbn; rewrite ?Hv; auto.
Qed.

Lemma brand_step_cases (ai : additional_info) (st : pass_state) :
  cur_verdict (brand_step ai st) = cur_verdict st
  \/ cur_verdict (brand_step ai st) = Malicious.
Proof.
  unfold brand_step.
  destruct (info_brand ai) as [b |]; [| now left].
  destruct (String.eqb b ""); [now left | now right].
Qed.

Lemma dns_step_cases (ai : additional_info) (st : pass_state) :
  cur_verdict (dns_step ai st) = cur_verdict st
  \/ cur_verdict (dns_step ai st) = Malicious.
Proof.
  unfold dns_step.
  destruct (info_dns ai) as [[|] |]; [now left | now right | now left].
Qed.

Lemma content_step_cases (available : bool) (score : Z) (st : pass_state) :
  cur_verdict (content_step available score st) = cur_verdict st
  \/ (cur_verdict st <> Malicious
      /\ (cur_verdict (content_step available score st) = Malicious
          \/ cur_verdict (content_step available score st) = Suspicious)).
Proof.
  unfold content_step.
  destruct available; [| now left].
  destruct (cur_verdict st) eqn:Hv; cbn [verdict_eqb negb andb]; try now left.
  all: destruct (score >? 0)%Z; [| now left].
  all: destruct (score >=? 2)%Z; right; (split; [congruence | cbn; auto]).
Qed.

Ltac verdict_cases :=
  repeat match goal with
         | H : _ \/ _ |- _ => destruct H
         | H : _ /\ _ |- _ => destruct H
         end.

(** C1: from a verdict of the ordered enumeration, each of the four steps
    of the pass (new domain, brand impersonation, invalid DNS, content
    analysis) yields a verdict of the enumeration of the same or a higher
    severity, and a malicious verdict stays malicious through every later
    step. *)
Theorem escalation_monotone :
  forall (ai : additional_info) (available : bool) (content_score : Z)
         (st : pass_state),
    cur_verdict st <> Unknown ->
    let s1 := new_domain_step ai st in
    let s2 := brand_step ai s1 in
    let s3 := dns_step ai s2 in
    let s4 := content_step available content_score s3 in
    (severity (cur_verdict st) <= severity (cur_verdict s1)
     /\ severity (cur_verdict s1) <= severity (cur_verdict s2)
     /\ severity (cur_verdict s2) <= severity (cur_verdict s3)
     /\ severity (cur_verdict s3) <= severity (cur_verdict s4))
    /\ (cur_verdict s1 <> Unknown /\ cur_verdict s2 <> Unknown
        /\ cur_verdict s3 <> Unknown /\ cur_verdict s4 <> Unknown)
    /\ (cur_verdict st = Malicious ->
        cur_verdict s1 = Malicious /\ cur_verdict s2 = Malicious
        /\ cur_verdict s3 = Malicious /\ cur_verdict s4 = Malicious)
    /\ (cur_verdict s1 = Malicious -> cur_verdict s4 = Malicious)
    /\ (cur_verdict s2 = Malicious -> cur_verdict s4 = Malicious)
    /\ (cur_verdict s3 = Malicious -> cur_verdict s4 = Malicious)
    /\ escalate ai available content_score st = s4.
Proof.
  intros ai available score st Hst s1 s2 s3 s4.
  pose proof (new_domain_step_cases ai st) as H1.
  pose proof (brand_step_cases ai s1) as H2.
  pose proof (dns_step_cases ai s2) as H3.
  pose proof (content_step_cases available score s3) as H4.
  fold s1 in H1. fold s2 in H2. fold s3 in H3. fold s4 in H4.
  assert (Hmono :
    forall a b : verdict,
      a <> Unknown ->
      (b = a \/ (a = Benign /\ b = Suspicious) \/ (a = Suspicious /\ b = Malicious)
       \/ b = Malicious \/ (a <> Malicious /\ b = Suspicious)) ->
      severity a <= severity b /\ b <> Unknown /\ (a = Malicious -> b = Malicious)).
  { intros a b Ha Hb. destruct a, b; cbn; verdict_cases;
      repeat split; try congruence; try lia; try discriminate. }
  destruct (Hmono (cur_verdict st) (cur_verdict s1) Hst) as [L1 [U1 A1]];
    [tauto |].
  destruct (Hmono (cur_verdict s1) (cur_verdict s2) U1) as [L2 [U2 A2]];
    [tauto |].
  destruct (Hmono (cur_verdict s2) (cur_verdict s3) U2) as [L3 [U3 A3]];
    [tauto |].
  destruct (Hmono (cur_verdict s3) (cur_verdict s4) U3) as [L4 [U4 A4]];
    [tauto |].
  repeat split; auto.
Qed.

Lemma escalation_monotone_witness :
  let ai := Info (mkDiagnostics (Some 10%Z) (Some true) false None "Unknown") in
  let st := mkState Benign 0.9 [] in
  cur_verdict st <> Unknown
  /\ severity (cur_verdict st) <= severity (cur_verdict (new_domain_step ai st))
  /\ cur_verdict (escalate ai true 2%Z st) = Malicious.
Proof.
  intros ai st.
  assert (H : cur_verdict st <> Unknown) by (cbn; discriminate).
  split; [exact H |].
  pose proof (escalation_monotone ai true 2%Z st H) as T.
  cbv zeta in T. split; [exact (proj1 (proj1 T)) |].
  vm_compute. reflexivity.
Defined.

(** C3, as amended: when the diagnostics report a brand, the brand step
    turns any state into verdict malicious with confidence 0.95 and puts
    the explanation [impersonates_<brand>], value 1.0 and contribution 0.9,
    in front of the explanations it received, and the pass always ends
    malicious.  The pass ends with confidence 0.95 and that explanation
    first unless the DNS flag is false; when it is false the pass ends
    with confidence 0.9, [invalid_dns] first and [impersonates_<brand>]
    second. *)
Theorem brand_forces_malicious :
  forall (ai : additional_info) (brand : string),
    info_brand ai = Some brand ->
    brand <> "" ->
    (forall st : pass_state,
        brand_step ai st =
        mkState Malicious 0.95
          (mkExplanation ("impersonates_" ++ brand) (Fin 1) (Fin 0.9)
             :: cur_top_features st))
    /\ (forall (available : bool) (content_score : Z) (st : pass_state),
           cur_verdict (escalate ai available content_score st) = Malicious)
    /\ (forall (available : bool) (content_score : Z) (st : pass_state),
           info_dns ai <> Some false ->
           cur_confidence (escalate ai available content_score st) = 0.95%Q
           /\ cur_top_features (escalate ai available content_score st) =
              mkExplanation ("impersonates_" ++ brand) (Fin 1) (Fin 0.9)
                :: cur_top_features (new_domain_step ai st))
    /\ (forall (available : bool) (content_score : Z) (st : pass_state),
           info_dns ai = Some false ->
           escalate ai available content_score st =
           mkState Malicious 0.9
             (mkExplanation "invalid_dns" (Fin 1) (Fin 0.8)
                :: mkExplanation ("impersonates_" ++ brand) (Fin 1) (Fin 0.9)
                :: cur_top_features (new_domain_step ai st))).
Proof.
  intros ai brand Hb Hne.
  assert (Hstep : forall st, brand_step ai st =
            mkState Malicious 0.95
              (mkExplanation ("impersonates_" ++ brand) (Fin 1) (Fin 0.9)
                 :: cur_top_features st)).
  { intros st. unfold brand_step. rewrite Hb.
    destruct (String.eqb_spec brand ""); [contradiction | reflexivity]. }
  assert (Hcontent : forall available score st,
             cur_verdict st = Malicious -> content_step available score st = st).
  { intros available score st Hv. unfold content_step. rewrite Hv.
    cbn. now rewrite andb_false_r. }
  split; [exact Hstep | split; [| split]].
  - intros available score st. unfold escalate.
    rewrite Hcontent; rewrite Hstep.
    + unfold dns_step. destruct (info_dns ai) as [[|] |]; reflexivity.
    + unfold dns_step. destruct (info_dns ai) as [[|] |]; reflexivity.
  - intros available score st Hdns. unfold escalate. rewrite Hstep.
    assert (E : forall s, dns_step ai s = s).
    { intros s. unfold dns_step.
      destruct (info_dns ai) as [[|] |]; try reflexivity. congruence. }
    rewrite E. rewrite Hcontent by reflexivity. split; reflexivity.
  - intros available score st Hdns. unfold escalate. rewrite Hstep.
    unfold dns_step. rewrite Hdns. unfold insert_front.
    rewrite Hcontent by reflexivity. reflexivity.
Qed.

Lemma brand_forces_malicious_witness :
  let ai := Info (mkDiagnostics None (Some true) false (Some "paypal") "Unknown") in
  info_brand ai = Some "paypal"
  /\ "paypal" <> ""
  /\ brand_step ai (mkState Benign 0.8 []) =
     mkState Malicious 0.95
       [mkExplanation "impersonates_paypal" (Fin 1) (Fin 0.9)].
Proof.
  intros ai.
  assert (H1 : info_brand ai = Some "paypal") by reflexivity.
  assert (H2 : "paypal" <> "") by discriminate.
  split; [exact H1 | split; [exact H2 |]].
  exact (proj1 (brand_forces_malicious ai "paypal" H1 H2) (mkState Benign 0.8 [])).
Defined.

(** C3 as stated fails: with a brand reported and the DNS flag false, the
    pass ends with confidence 0.9, not 0.95, and [invalid_dns], not
    [impersonates_paypal], is the first explanation. *)
Lemma brand_with_invalid_dns_ends_at_dns_values :
  info_brand (Info (mkDiagnostics None (Some false) false (Some "paypal") "Unknown"))
  = Some "paypal"
  /\ escalate (Info (mkDiagnostics None (Some false) false (Some "paypal") "Unknown"))
       false 0 (mkState Benign 0.8 [])
     = mkState Malicious 0.9
         [mkExplanation "invalid_dns" (Fin 1) (Fin 0.8);
          mkExplanation "impersonates_paypal" (Fin 1) (Fin 0.9)]
  /\ cur_confidence
       (escalate (Info (mkDiagnostics None (Some false) false (Some "paypal") "Unknown"))
          false 0 (mkState Benign 0.8 []))
     <> 0.95%Q
  /\ hd_error
       (cur_top_features
          (escalate (Info (mkDiagnostics None (Some false) false (Some "paypal") "Unknown"))
             false 0 (mkState Benign 0.8 [])))
     <> Some (mkExplanation "impersonates_paypal" (Fin 1) (Fin 0.9)).
Proof.
  split; [reflexivity |].
  split; [vm_compute; reflexivity |].
  split; vm_compute; discriminate.
Qed.

(** What the detector reports as a brand is a key of the brand table, so
    the guard of the brand step holds for it. *)
Lemma brand_loop_nonempty (dist : string -> string -> nat) (d : string)
    (brands : list (string * list string)) (b : string) :
  brand_loop dist d brands = Some b -> In b (map fst brands).
Proof.
  induction brands as [| [b' legit] r IH]; cbn; [discriminate |].
  destruct (mem d legit); [auto |].
  destruct (contains b' d); [intros [= <-]; auto |].
  destruct (existsb _ legit); [intros [= <-]; auto | auto].
Qed.

Lemma check_brand_nonempty (netloc b : string) :
  check_brand netloc = Some b -> b <> "".
Proof.
  unfold check_brand, brand_of_netloc.
  destruct (mem _ WHITELIST); [discriminate |].
  intros H. apply brand_loop_nonempty in H.
  cbn in H. intuition (subst; discriminate).
Qed.

(** ** The mock scorer *)

Lemma mock_score_risk (features : features_dict) (sk sh ip ul dd : pyfloat) :
  lookup "suspicious_keywords" features = Some sk ->
  lookup "is_shortened" features = Some sh ->
  lookup "has_ip_address" features = Some ip ->
  lookup "url_length" features = Some ul ->
  lookup "domain_dots" features = Some dd ->
  mock_score features = Ok (risk sk sh ip ul dd).
Proof.
  intros H1 H2 H3 H4 H5. unfold mock_score, getitem.
  rewrite H1, H2, H3, H4, H5. cbn [bind]. unfold risk, indicator. f_equal.
  destruct (float_gt sk 0), (float_gt sh 0), (float_gt ip 0),
    (float_gt ul 75), (float_gt dd 3); reflexivity.
Qed.

Lemma risk_range (sk sh ip ul dd : pyfloat) :
  (0 <= risk sk sh ip ul dd <= 8)%Z.
Proof.
  unfold risk, indicator.
  destruct (float_gt sk 0), (float_gt sh 0), (float_gt ip 0),
    (float_gt ul 75), (float_gt dd 3); lia.
Qed.

Lemma mock_verdict_cases (k : Z) (rnd : Q) :
  (0 <= k <= 8)%Z -> (0 <= rnd)%Q -> (rnd < 1)%Q ->
  ((2 <= k)%Z ->
     fst (mock_verdict k rnd) = Malicious
     /\ (snd (mock_verdict k rnd) == Qmin (0.6 + 0.1 * inject_Z k) 0.99)%Q)
  /\ (k = 1%Z ->
     fst (mock_verdict k rnd) = Suspicious /\ snd (mock_verdict k rnd) = 0.65%Q)
  /\ (k = 0%Z ->
     fst (mock_verdict k rnd) = Benign
     /\ exists jitter : Q,
          (0 <= jitter)%Q /\ (jitter < 0.1)%Q
          /\ (snd (mock_verdict k rnd) == 0.85 + jitter)%Q).
Proof.
  intros Hk H0 H1. split; [| split].
  - intros H2. split.
    + unfold mock_verdict. destruct (k >=? 2)%Z eqn:E; [reflexivity | lia].
    + assert (E : (k = 2 \/ k = 3 \/ k = 4 \/ k = 5 \/ k = 6 \/ k = 7 \/ k = 8)%Z)
        by lia.
      destruct E as [-> | [-> | [-> | [-> | [-> | [-> | ->]]]]]];
        vm_compute; reflexivity.
  - intros ->. split; reflexivity.
  - intros ->. split; [reflexivity |].
    exists (rnd * 0.1)%Q. cbn. split; [lra | split; [lra | reflexivity]].
Qed.

(** C5: the mock scorer computes the risk sum
    2[suspicious_keywords > 0] + [is_shortened > 0] + 3[has_ip_address > 0]
    + [url_length > 75] + [domain_dots > 3] and answers malicious with
    confidence min(0.6 + 0.1 risk, 0.99) when the risk is at least 2,
    suspicious with confidence 0.65 when it is 1, and benign with
    confidence 0.85 plus a jitter in [0, 0.1) when it is 0; the vector with
    [has_ip_address = 1], [url_length = 80] and zeros elsewhere has risk 4
    and gets malicious with confidence 0.99. *)
Theorem mock_scorer :
  (forall (version : string) (rnd : Q) (features : features_dict)
          (ai : additional_info) (sk sh ip ul dd : pyfloat),
      lookup "suspicious_keywords" features = Some sk ->
      lookup "is_shortened" features = Some sh ->
      lookup "has_ip_address" features = Some ip ->
      lookup "url_length" features = Some ul ->
      lookup "domain_dots" features = Some dd ->
      (0 <= rnd)%Q -> (rnd < 1)%Q ->
      exists r : prediction,
        _mock_predict version rnd features ai = Ok r
        /\ mock_score features = Ok (risk sk sh ip ul dd)
        /\ ((2 <= risk sk sh ip ul dd)%Z ->
              verdict_of r = Malicious
              /\ (confidence_of r ==
                  Qmin (0.6 + 0.1 * inject_Z (risk sk sh ip ul dd)) 0.99)%Q)
        /\ (risk sk sh ip ul dd = 1%Z ->
              verdict_of r = Suspicious /\ confidence_of r = 0.65%Q)
        /\ (risk sk sh ip ul dd = 0%Z ->
              verdict_of r = Benign
              /\ exists jitter : Q,
                   (0 <= jitter)%Q /\ (jitter < 0.1)%Q
                   /\ (confidence_of r == 0.85 + jitter)%Q))
  /\ mock_score ip_and_long_url = Ok 4%Z
  /\ (forall (version : string) (rnd : Q) (ai : additional_info),
         exists r : prediction,
           _mock_predict version rnd ip_and_long_url ai = Ok r
           /\ verdict_of r = Malicious /\ confidence_of r = 0.99%Q).
Proof.
  split; [| split].
  - intros version rnd features ai sk sh ip ul dd H1 H2 H3 H4 H5 Hr0 Hr1.
    pose proof (mock_score_risk features sk sh ip ul dd H1 H2 H3 H4 H5) as Hs.
    pose proof (mock_verdict_cases (risk sk sh ip ul dd) rnd
                  (risk_range sk sh ip ul dd) Hr0 Hr1) as Hv.
    unfold _mock_predict. rewrite Hs. cbn [bind].
    destruct (mock_verdict (risk sk sh ip ul dd) rnd) as [v c] eqn:Hm.
    cbn [fst snd] in Hv.
    eexists. split; [reflexivity |]. split; [reflexivity |].
    cbn [verdict_of confidence_of]. exact Hv.
  - vm_compute. reflexivity.
  - intros version rnd ai. eexists. split; [| split].
    + unfold _mock_predict.
      replace (mock_score ip_and_long_url) with (@Ok Z 4%Z)
        by (vm_compute; reflexivity).
      cbn [bind]. reflexivity.
    + reflexivity.
    + vm_compute. reflexivity.
Qed.

Lemma mock_scorer_witness :
  exists r : prediction,
    _mock_predict "v1.0.0" 0 ip_and_long_url InfoEmpty = Ok r
    /\ mock_score ip_and_long_url = Ok (risk (Fin 0) (Fin 0) (Fin 1) (Fin 80) (Fin 0))
    /\ ((2 <= risk (Fin 0) (Fin 0) (Fin 1) (Fin 80) (Fin 0))%Z ->
          verdict_of r = Malicious
          /\ (confidence_of r ==
              Qmin (0.6 + 0.1 * inject_Z (risk (Fin 0) (Fin 0) (Fin 1) (Fin 80) (Fin 0)))
                   0.99)%Q)
    /\ (risk (Fin 0) (Fin 0) (Fin 1) (Fin 80) (Fin 0) = 1%Z ->
          verdict_of r = Suspicious /\ confidence_of r = 0.65%Q)
    /\ (risk (Fin 0) (Fin 0) (Fin 1) (Fin 80) (Fin 0) = 0%Z ->
          verdict_of r = Benign
          /\ exists jitter : Q,
               (0 <= jitter)%Q /\ (jitter < 0.1)%Q
               /\ (confidence_of r == 0.85 + jitter)%Q).
Proof.
  apply (proj1 mock_scorer "v1.0.0" 0%Q ip_and_long_url InfoEmpty
           (Fin 0) (Fin 0) (Fin 1) (Fin 80) (Fin 0));
    try reflexivity.
  - discriminate.
Defined.

(** ** Dictionaries *)


Lemma lookup_None_keys {V : Type} (k : string) (d : list (string * V)) :
  lookup k d = None <-> ~ In k (keys d).
Proof.
  induction d as [| [k' v'] r IH]; cbn; [tauto |].
  destruct (String.eqb_spec k k') as [-> | Hne].
  - split; [discriminate | intros H; exfalso; auto].
  - rewrite IH. intuition congruence.
Qed.

Lemma lookup_of_keys {V : Type} (k : string) (d : list (string * V)) :
  In k (keys d) -> exists v, lookup k d = Some v.
Proof.
  intros H. destruct (lookup k d) as [v |] eqn:E; [now exists v |].
  apply lookup_None_keys in E. contradiction.
Qed.

Lemma setitem_fresh (d : features_dict) (k : string) (v : pyfloat) :
  lookup k d = None -> setitem d k v = (d ++ [(k, v)])%list.
Proof.
  induction d as [| [k' v'] r IH]; cbn; [reflexivity |].
  destruct (String.eqb k k'); [discriminate |].
  intros H. now rewrite IH.
Qed.

Lemma update_fresh (e d : features_dict) :
  NoDup (keys e) ->
  (forall k, In k (keys e) -> ~ In k (keys d)) ->
  update d e = (d ++ e)%list.
Proof.
  unfold update. revert d.
  induction e as [| [k v] r IH]; intros d Hnd Hfresh; cbn.
  - now rewrite app_nil_r.
  - inversion Hnd as [| ? ? Hk Hr]; subst.
    rewrite setitem_fresh by (apply lookup_None_keys, Hfresh; now left).
    rewrite IH; [now rewrite <- app_assoc | assumption |].
    intros k' Hk' Hin. unfold keys in Hin. rewrite map_app in Hin.
    apply in_app_or in Hin. destruct Hin as [Hin | [<- | []]].
    + apply (Hfresh k'); [now right | exact Hin].
    + contradiction.
Qed.

Lemma feature_names_NoDup : NoDup feature_names.
Proof.
  unfold feature_names.
  repeat (constructor; [cbn; intuition discriminate |]). constructor.
Qed.

Lemma enriched_names_fresh (k : string) :
  In k (skipn 10 feature_names) -> ~ In k (firstn 10 feature_names).
Proof.
  cbn. intros Hs Hf.
  repeat (destruct Hs as [<- | Hs]; [intuition discriminate |]).
  exact Hs.
Qed.

(** ** Feature extraction *)

Ltac bind_inv H :=
  repeat match type of H with
         | bind ?m _ = Ok _ =>
             let E := fresh "E" in
             destruct m eqn:E; cbn [bind] in H; [| discriminate H]
         end.

Lemma lexical_keys (w : World) (url : string) (p : ParseResult) :
  keys (_extract_lexical w url p) = firstn 10 feature_names.
Proof. reflexivity. Qed.

Lemma lexical_finite (w : World) (url : string) (p : ParseResult) :
  forallb is_finite (values (_extract_lexical w url p)) = true.
Proof.
  unfold _extract_lexical, _digit_ratio, _shannon_entropy, float_of_nat. cbn.
  destruct (String.length url =? 0)%nat;
    destruct (String.length (netloc p) =? 0)%nat; reflexivity.
Qed.

Lemma update_empty (d : features_dict) :
  NoDup (keys d) -> update [] d = d.
Proof.
  intros H. rewrite update_fresh; [reflexivity | assumption | intros k _ []].
Qed.

Lemma lexical_NoDup (w : World) (url : string) (p : ParseResult) :
  NoDup (keys (_extract_lexical w url p)).
Proof.
  rewrite lexical_keys. pose proof feature_names_NoDup as H.
  rewrite <- (firstn_skipn 10 feature_names) in H.
  now apply NoDup_app_remove_r in H.
Qed.

Lemma py_get_finite (w : World) (v default x : pyval) (k : string) :
  pyval_finite w v = true -> pyval_finite w default = true ->
  py_get v k default = Ok x -> pyval_finite w x = true.
Proof.
  intros Hv Hd. destruct v; cbn; try discriminate.
  intros [= <-]. cbn in Hv.
  induction d as [| [k' v'] r IH]; cbn; [assumption |].
  apply andb_true_iff in Hv. destruct Hv as [Hv' Hr].
  destruct (String.eqb k k'); [assumption | now apply IH].
Qed.

Lemma py_float_finite (w : World) (x : pyval) (f : pyfloat) :
  pyval_finite w x = true -> py_float w x = Ok f -> is_finite f = true.
Proof.
  destruct x; unfold py_float; cbn [pyval_finite]; try discriminate.
  - intros _ [= <-]. reflexivity.
  - intros _. destruct (Z.abs z <? float_int_limit)%Z; [| discriminate].
    intros [= <-]. reflexivity.
  - intros H [= <-]. exact H.
  - intros H E. rewrite E in H. exact H.
Qed.

Lemma field_finite (w : World) (e section default : pyval) (s k : string)
    (f : pyfloat) :
  pyval_finite w e = true ->
  py_get e s (VDict []) = Ok section ->
  pyval_finite w default = true ->
  field w section k default = Ok f ->
  is_finite f = true.
Proof.
  intros He Hs Hd Hf. unfold field in Hf. bind_inv Hf.
  apply (py_float_finite w a); [| assumption].
  apply (py_get_finite w section default a k); try assumption.
  now apply (py_get_finite w e (VDict []) section s).
Qed.

Lemma enriched_keys (w : World) (e : pyval) (en : features_dict) :
  _extract_enriched w e = Ok en -> keys en = skipn 10 feature_names.
Proof.
  intros H. unfold _extract_enriched in H. bind_inv H.
  injection H as <-. reflexivity.
Qed.

Lemma enriched_finite (w : World) (e : pyval) (en : features_dict) :
  _extract_enriched w e = Ok en -> pyval_finite w e = true ->
  forallb is_finite (values en) = true.
Proof.
  intros H He. unfold _extract_enriched in H. bind_inv H.
  injection H as <-. cbn [values map snd forallb].
  repeat match goal with
         | Hs : py_get e ?s (VDict []) = Ok ?sec,
           Hf : field w ?sec ?k ?d = Ok ?v |- _ =>
             assert (is_finite v = true)
               by (apply (field_finite w e sec d s k v He Hs eq_refl Hf));
             clear Hf
         end.
  repeat (apply andb_true_intro; split); solve [assumption | reflexivity].
Qed.


(** The shape of the body's result: the lexical features followed by the
    enriched ones. *)
Lemma extract_all_body_shape (w : World) (url : string) (e : pyval)
    (f : features_dict) :
  extract_all_body w url e = Ok f ->
  exists p en,
    urlparse w url = Ok p
    /\ f = (_extract_lexical w url p ++ en)%list
    /\ ((truthy e = false
         /\ en = map (fun n => (n, Fin 0)) (skipn 10 feature_names))
        \/ (truthy e = true /\ _extract_enriched w e = Ok en)).
Proof.
  unfold extract_all_body. intros H.
  destruct (urlparse w url) as [p | x] eqn:Hp; cbn [bind] in H; [| discriminate].
  rewrite (update_empty _ (lexical_NoDup w url p)) in H.
  exists p. destruct (truthy e) eqn:Ht.
  - destruct (_extract_enriched w e) as [en | x] eqn:He; cbn [bind] in H;
      [| discriminate].
    exists en. injection H as <-. split; [reflexivity | split; [| now right]].
    apply update_fresh.
    + rewrite (enriched_keys w e en He). pose proof feature_names_NoDup as H.
      rewrite <- (firstn_skipn 10 feature_names) in H.
      now apply NoDup_app_remove_l in H.
    + intros k Hk. rewrite (enriched_keys w e en He) in Hk.
      rewrite lexical_keys. now apply enriched_names_fresh.
  - eexists. injection H as <-. split; [reflexivity | split; [| now left]].
    reflexivity.
Qed.

Lemma extract_all_keys (w : World) (url : string) (e : pyval) :
  keys (extract_all w url e) = feature_names.
Proof.
  unfold extract_all.
  destruct (extract_all_body w url e) as [f | x] eqn:H.
  - apply extract_all_body_shape in H.
    destruct H as [p [en [_ [-> Hen]]]].
    unfold keys. rewrite map_app. fold (keys (_extract_lexical w url p)).
    rewrite lexical_keys. fold (keys en).
    replace (keys en) with (skipn 10 feature_names).
    + apply firstn_skipn.
    + destruct Hen as [[_ ->] | [_ He]].
      * unfold keys. rewrite map_map. cbn [fst]. now rewrite map_id.
      * symmetry. exact (enriched_keys w e en He).
  - unfold zero_features, keys. rewrite map_map. cbn [fst]. apply map_id.
Qed.

Lemma extract_all_finite (w : World) (url : string) (e : pyval) :
  truthy e = false \/ pyval_finite w e = true ->
  forallb is_finite (values (extract_all w url e)) = true.
Proof.
  intros Hfin. unfold extract_all.
  destruct (extract_all_body w url e) as [f | x] eqn:H.
  - apply extract_all_body_shape in H.
    destruct H as [p [en [_ [-> Hen]]]].
    unfold values. rewrite map_app, forallb_app.
    fold (values (_extract_lexical w url p)). rewrite lexical_finite.
    destruct Hen as [[_ ->] | [Ht He]].
    + reflexivity.
    + destruct Hfin as [Hf | Hf]; [congruence |].
      exact (enriched_finite w e en He Hf).
  - reflexivity.
Qed.

(** C2, as amended: for every URL string and every enrichment value,
    extraction returns (it is a total function; the exceptions of its body
    are caught) a dict whose keys are exactly the 25 canonical names in
    canonical order; its values are finite when no enrichment record is
    supplied or the record holds no infinite or NaN number; when parsing
    the URL or reading the record raises, it is the all-zero vector. *)
Theorem extract_all_total :
  forall (w : World) (url : string) (e : pyval),
    keys (extract_all w url e) = feature_names
    /\ (truthy e = false \/ pyval_finite w e = true ->
        forallb is_finite (values (extract_all w url e)) = true)
    /\ (forall x, urlparse w url = Raise x ->
                  extract_all w url e = zero_features)
    /\ (forall x, extract_all_body w url e = Raise x ->
                  extract_all w url e = zero_features)
    /\ forallb (fun kv => match snd kv with Fin q => Qeq_bool q 0 | _ => false end)
               zero_features = true.
Proof.
  intros w url e. split; [apply extract_all_keys |].
  split; [apply extract_all_finite |].
  split; [| split].
  - intros x Hx. unfold extract_all, extract_all_body. now rewrite Hx.
  - intros x Hx. unfold extract_all. now rewrite Hx.
  - reflexivity.
Qed.

Lemma extract_all_total_witness :
  truthy VNone = false
  /\ forallb is_finite (values (extract_all network_down "" VNone)) = true
  /\ urlparse network_down "http://[::1" = Raise ValueError
  /\ extract_all network_down "http://[::1" VNone = zero_features.
Proof.
  assert (H1 : truthy VNone = false) by reflexivity.
  assert (H2 : urlparse network_down "http://[::1" = Raise ValueError)
    by reflexivity.
  pose proof (extract_all_total network_down "" VNone) as T1.
  pose proof (extract_all_total network_down "http://[::1" VNone) as T2.
  split; [exact H1 | split; [| split; [exact H2 |]]].
  - exact (proj1 (proj2 T1) (or_introl H1)).
  - exact (proj1 (proj2 (proj2 T2)) ValueError H2).
Defined.

(** C2 as stated fails: with an infinite number in the enrichment record
    the returned vector holds a non-finite value. *)
Lemma extract_all_infinite_value :
  lookup "as_reputation_score" (extract_all network_down "" infinite_reputation)
  = Some PosInf
  /\ forallb is_finite (values (extract_all network_down "" infinite_reputation))
     = false.
Proof. split; vm_compute; reflexivity. Qed.




(** ** The DNS diagnostic *)

(** An A or an MX record makes the diagnostic true. *)
Lemma check_dns_record_present (w : World) (url : string) (p : ParseResult) :
  urlparse w url = Ok p ->
  dns_resolve w (netloc p) RdA = Ok tt \/ dns_resolve w (netloc p) RdMX = Ok tt ->
  _check_dns w url = true.
Proof.
  intros Hp H. unfold _check_dns. rewrite Hp.
  destruct (dns_resolve w (netloc p) RdA) as [[] | x]; [reflexivity |].
  destruct H as [H | H]; [discriminate | now rewrite H].
Qed.

(** When both lookups raise, whatever they raise, it is false. *)
Lemma check_dns_lookups_raise (w : World) (url : string) (p : ParseResult)
    (x y : exn) :
  urlparse w url = Ok p ->
  dns_resolve w (netloc p) RdA = Raise x ->
  dns_resolve w (netloc p) RdMX = Raise y ->
  _check_dns w url = false.
Proof.
  intros Hp Hx Hy. unfold _check_dns. now rewrite Hp, Hx, Hy.
Qed.

(** The default [True] is reached when the URL cannot be parsed, and only
    then. *)
Lemma check_dns_default (w : World) (url : string) (x : exn) :
  urlparse w url = Raise x -> _check_dns w url = true.
Proof.
  intros Hp. unfold _check_dns. now rewrite Hp.
Qed.

(** C4: with the resolver timing out on every query, the diagnostic of
    [http://example.com] is false: the failure of the lookup mechanism is
    swallowed by the inner handlers and never reaches the default. *)
Theorem check_dns_network_failure :
  urlparse network_down "http://example.com" = Ok (mkParse "example.com" "" "")
  /\ dns_resolve network_down "example.com" RdA = Raise LifetimeTimeout
  /\ dns_resolve network_down "example.com" RdMX = Raise LifetimeTimeout
  /\ _check_dns network_down "http://example.com" = false.
Proof. repeat split. Qed.

(** ** The result of [predict] *)

Lemma model_result_features (w : World) (url : string) (features : features_dict)
    (ai : additional_info) (r : prediction) :
  model_result w url features ai = Some r -> all_features_of r = features.
Proof.
  unfold model_result.
  destruct (model w) as [m |]; [| discriminate].
  destruct (scaler w) as [sc |]; [| discriminate].
  destruct (ML_AVAILABLE w); [| discriminate].
  match goal with
  | |- match ?b with _ => _ end = _ -> _ => destruct b as [r' | x] eqn:H
  end; [| discriminate].
  intros [= <-]. bind_inv H. injection H as <-. reflexivity.
Qed.

Lemma mock_predict_features (version : string) (rnd : Q) (features : features_dict)
    (ai : additional_info) :
  keys features = feature_names ->
  exists r, _mock_predict version rnd features ai = Ok r
            /\ all_features_of r = features.
Proof.
  intros Hk.
  assert (Hin : forall n, In n feature_names -> exists v, lookup n features = Some v).
  { intros n Hn. apply lookup_of_keys. now rewrite Hk. }
  destruct (Hin "suspicious_keywords") as [sk Hsk]; [cbn; tauto |].
  destruct (Hin "is_shortened") as [sh Hsh]; [cbn; tauto |].
  destruct (Hin "has_ip_address") as [ip Hip]; [cbn; tauto |].
  destruct (Hin "url_length") as [ul Hul]; [cbn; tauto |].
  destruct (Hin "domain_dots") as [dd Hdd]; [cbn; tauto |].
  unfold _mock_predict.
  rewrite (mock_score_risk features sk sh ip ul dd Hsk Hsh Hip Hul Hdd).
  cbn [bind]. destruct (mock_verdict _ rnd) as [v c].
  eexists. split; reflexivity.
Qed.

(** C10, as amended: [predict] always returns a result; the result of the
    whitelist short-circuit carries an empty feature dict, and every other
    result carries the vector of [extract_all], whose keys are exactly the
    25 canonical names in canonical order. *)
Theorem predict_raw_features :
  forall (w : World) (url : string) (e : pyval),
  exists r : prediction,
    predict w url e = Ok r
    /\ ((exists p, urlparse w url = Ok p /\ is_whitelisted (netloc p) = true
                   /\ whitelist_result w url = Some r
                   /\ all_features_of r = [])
        \/ ((forall p, urlparse w url = Ok p -> is_whitelisted (netloc p) = false)
            /\ whitelist_result w url = None
            /\ all_features_of r = extract_all w url e
            /\ keys (all_features_of r) = feature_names)).
Proof.
  intros w url e. unfold predict.
  destruct (whitelist_result w url) as [r |] eqn:Hw.
  - exists r. split; [reflexivity | left].
    unfold whitelist_result in Hw.
    destruct (urlparse w url) as [p | x]; [| discriminate].
    destruct (is_whitelisted (netloc p)) eqn:Hi; [| discriminate].
    injection Hw as <-. exists p. repeat split; assumption.
  - assert (Hn : forall p, urlparse w url = Ok p -> is_whitelisted (netloc p) = false).
    { intros p Hp. unfold whitelist_result in Hw. rewrite Hp in Hw.
      destruct (is_whitelisted (netloc p)); [discriminate | reflexivity]. }
    destruct (model_result w url (extract_all w url e) (gather_info w url))
      as [r |] eqn:Hm.
    + exists r. split; [reflexivity | right].
      apply model_result_features in Hm. rewrite Hm.
      repeat split; try assumption. apply extract_all_keys.
    + destruct (mock_predict_features (model_version w) (random_random w)
                  (extract_all w url e) (gather_info w url)
                  (extract_all_keys w url e)) as [r [Hr Hf]].
      exists r. split; [exact Hr | right]. rewrite Hf.
      repeat split; try assumption. apply extract_all_keys.
Qed.

Lemma predict_raw_features_witness :
  exists r : prediction,
    predict network_down "http://g0ogle.com/login" VNone = Ok r
    /\ keys (all_features_of r) = feature_names.
Proof.
  destruct (predict_raw_features network_down "http://g0ogle.com/login" VNone)
    as [r [Hr [[p [Hp [Hi _]]] | [_ [_ [_ Hk]]]]]].
  - exfalso. vm_compute in Hp. injection Hp as <-. vm_compute in Hi. discriminate.
  - exists r. split; assumption.
Defined.

(** C10 as stated fails: the result for a whitelisted host carries no
    feature at all. *)
Lemma whitelisted_result_has_no_features :
  exists r : prediction,
    predict network_down "https://www.google.com" VNone = Ok r
    /\ verdict_of r = Benign
    /\ all_features_of r = []
    /\ keys (all_features_of r) <> feature_names.
Proof.
  eexists. split; [vm_compute; reflexivity |].
  repeat split. cbn. discriminate.
Qed.

(** With no scoring backend, the result of a host that is not whitelisted
    is the mock scorer's. *)
Lemma predict_without_backend (w : World) (url : string) (e : pyval) :
  model w = None \/ scaler w = None \/ ML_AVAILABLE w = false ->
  whitelist_result w url = None ->
  predict w url e =
  _mock_predict (model_version w) (random_random w)
    (extract_all w url e) (gather_info w url).
Proof.
  intros H Hw. unfold predict. rewrite Hw.
  replace (model_result w url (extract_all w url e) (gather_info w url))
    with (@None prediction); [reflexivity |].
  unfold model_result.
  destruct (model w), (scaler w), (ML_AVAILABLE w); try reflexivity.
  destruct H as [H | [H | H]]; discriminate.
Qed.

(** The detector on whole URLs: the host is what [urlparse] finds, so a
    string without a scheme has an empty host and is never flagged. *)
Lemma check_brand_on_urls :
  _check_brand_impersonation network_down "http://g0ogle.com/login" = Some "google"
  /\ _check_brand_impersonation network_down "http://paypal-secure-update.com"
     = Some "paypal"
  /\ _check_brand_impersonation network_down "https://www.google.com" = None
  /\ _check_brand_impersonation network_down "g0ogle.com" = None.
Proof.
  unfold _check_brand_impersonation.
  repeat split; cbn [urlparse network_down reference_world];
    match goal with
    | |- match ?p with _ => _ end = _ =>
        let r := eval vm_compute in p in change p with r; cbv iota beta
    end;
    rewrite check_brand_dp; vm_compute; reflexivity.
Qed.

(** * Further properties *)

(** ** More on strings *)

Lemma lower_ascii_idempotent (c : ascii) :
  lower_ascii (lower_ascii c) = lower_ascii c.
Proof. destruct c as [[] [] [] [] [] [] [] []]; reflexivity. Qed.

Lemma lower_idempotent (s : string) : lower (lower s) = lower s.
Proof.
  induction s as [| c r IH]; [reflexivity |].
  cbn. now rewrite lower_ascii_idempotent, IH.
Qed.

Lemma lower_app (a b : string) : lower (a ++ b) = lower a ++ lower b.
Proof.
  induction a as [| c r IH]; [reflexivity |]. cbn. now rewrite IH.
Qed.

Lemma prefix_app (sub s post : string) :
  String.prefix sub s = true -> String.prefix sub (s ++ post) = true.
Proof.
  revert s. induction sub as [| c r IH]; intros s H.
  - destruct (s ++ post); reflexivity.
  - destruct s as [| c' s']; cbn in *; [discriminate |].
    destruct (Ascii.ascii_dec c c'); [now apply IH | discriminate].
Qed.

Lemma contains_unfold (sub s : string) :
  contains sub s =
  if String.prefix sub s then true
  else match s with
       | EmptyString => false
       | String _ r => contains sub r
       end.
Proof. destruct s; reflexivity. Qed.

Lemma contains_app_r (sub s post : string) :
  contains sub s = true -> contains sub (s ++ post) = true.
Proof.
  induction s as [| c r IH]; rewrite contains_unfold; intros H.
  - destruct (String.prefix sub "") eqn:E; [| discriminate].
    rewrite contains_unfold. now rewrite (prefix_app sub "" post E).
  - rewrite contains_unfold.
    destruct (String.prefix sub (String c r)) eqn:E.
    + now rewrite (prefix_app sub (String c r) post E).
    + destruct (String.prefix sub (String c r ++ post)); [reflexivity |].
      cbn [append]. now apply IH.
Qed.

Lemma contains_app_l (sub pre s : string) :
  contains sub s = true -> contains sub (pre ++ s) = true.
Proof.
  intros H. induction pre as [| c r IH]; [exact H |].
  cbn [append]. rewrite contains_unfold.
  destruct (String.prefix sub (String c (r ++ s))); [reflexivity | exact IH].
Qed.

Lemma contains_embedded (sub pre s post : string) :
  contains sub s = true -> contains sub (pre ++ s ++ post) = true.
Proof.
  intros H. apply contains_app_l. now apply contains_app_r.
Qed.

Lemma filter_length_le {A : Type} (f g : A -> bool) (l : list A) :
  (forall x, f x = true -> g x = true) ->
  List.length (filter f l) <= List.length (filter g l).
Proof.
  intros H. induction l as [| a r IH]; [reflexivity |].
  cbn. destruct (f a) eqn:Ef.
  - rewrite (H a Ef). cbn. lia.
  - destruct (g a); cbn; lia.
Qed.

Lemma filter_length_bound {A : Type} (f : A -> bool) (l : list A) :
  List.length (filter f l) <= List.length l.
Proof.
  induction l as [| a r IH]; [reflexivity |].
  cbn. destruct (f a); cbn; lia.
Qed.


(** ** The lexical features *)


(** X2: the suspicious-keyword count is at most 17, does not depend on the
    case of the URL, and never decreases when text is added before or
    after the URL. *)
Theorem suspicious_keywords_monotone :
  forall pre url post : string,
    _count_suspicious_keywords url
    <= _count_suspicious_keywords (pre ++ url ++ post)
    /\ _count_suspicious_keywords url <= 17
    /\ _count_suspicious_keywords (lower url) = _count_suspicious_keywords url
    /\ _count_suspicious_keywords "" = 0.
Proof.
  intros pre url post. unfold _count_suspicious_keywords. cbv zeta.
  repeat split.
  - apply filter_length_le. intros k Hk.
    rewrite !lower_app. now apply contains_embedded.
  - etransitivity; [apply filter_length_bound | reflexivity].
  - now rewrite lower_idempotent.
Qed.

Lemma search_unfold (here : string -> bool) (s : string) :
  search here s =
  if here s then true
  else match s with
       | EmptyString => false
       | String _ r => search here r
       end.
Proof. destruct s; reflexivity. Qed.

Lemma search_app_l (here : string -> bool) (pre s : string) :
  search here s = true -> search here (pre ++ s) = true.
Proof.
  intros H. induction pre as [| c r IH]; [exact H |].
  cbn [append]. rewrite search_unfold.
  destruct (here (String c (r ++ s))); [reflexivity | exact IH].
Qed.

Lemma search_here (here : string -> bool) (s : string) :
  here s = true -> search here s = true.
Proof. intros H. rewrite search_unfold. now rewrite H. Qed.

Lemma search_true (here : string -> bool) (s : string) :
  search here s = true ->
  exists t, here t = true /\ String.length t <= String.length s.
Proof.
  induction s as [| c r IH]; rewrite search_unfold.
  - destruct (here "") eqn:E; [| discriminate]. intros _. now exists "".
  - destruct (here (String c r)) eqn:E.
    + intros _. now exists (String c r).
    + intros H. destruct (IH H) as [t [Ht Hl]]. exists t. cbn. split; [exact Ht | lia].
Qed.

Lemma match_digits_group (n : nat) (g rest : string) :
  1 <= String.length g <= n ->
  forallb is_digit (list_ascii_of_string g) = true ->
  In rest (match_digits n (g ++ rest)).
Proof.
  revert g. induction n as [| n IH]; intros g [H1 H2] Hd; [lia |].
  destruct g as [| c g]; cbn in H1, H2; [lia |].
  cbn in Hd. apply andb_true_iff in Hd. destruct Hd as [Hc Hg].
  cbn [append match_digits]. rewrite Hc.
  destruct g as [| c' g'].
  - now left.
  - right. apply IH; [cbn in *; lia | exact Hg].
Qed.

Lemma digit_group_spec (g : string) :
  digit_group g = true ->
  1 <= String.length g <= 3 /\ forallb is_digit (list_ascii_of_string g) = true.
Proof.
  unfold digit_group. rewrite !andb_true_iff, !Nat.leb_le. tauto.
Qed.

Lemma match_ipv4_here_quad (g1 g2 g3 g4 post : string) :
  digit_group g1 = true -> digit_group g2 = true ->
  digit_group g3 = true -> digit_group g4 = true ->
  match_ipv4_here (g1 ++ "." ++ g2 ++ "." ++ g3 ++ "." ++ g4 ++ post) = true.
Proof.
  intros H1 H2 H3 H4.
  apply digit_group_spec in H1, H2, H3, H4.
  assert (Hstep : forall g r l, 1 <= String.length g <= 3 ->
            forallb is_digit (list_ascii_of_string g) = true ->
            In ("." ++ g ++ r) l ->
            In r (flat_map (match_digits 3) (flat_map match_dot l))).
  { intros g r l Hg Hd Hin. apply in_flat_map. exists (g ++ r). split.
    - apply in_flat_map. exists ("." ++ g ++ r). split; [exact Hin | now left].
    - now apply match_digits_group. }
  unfold match_ipv4_here. cbv zeta.
  assert (Hin : In post
                   (flat_map (match_digits 3) (flat_map match_dot
                      (flat_map (match_digits 3) (flat_map match_dot
                         (flat_map (match_digits 3) (flat_map match_dot
                            (match_digits 3
                               (g1 ++ "." ++ g2 ++ "." ++ g3 ++ "." ++ g4 ++ post))))))))).
  { apply (Hstep g4); try tauto. apply (Hstep g3); try tauto.
    apply (Hstep g2); try tauto. apply match_digits_group; tauto. }
  destruct (flat_map _ _); [destruct Hin | reflexivity].
Qed.

Lemma match_class_run_prefix (n : nat) (run post : string) :
  n <= String.length run ->
  forallb is_hex_or_colon (list_ascii_of_string run) = true ->
  match_class_run n (run ++ post) = true.
Proof.
  revert run. induction n as [| n IH]; intros run Hl Hr; [reflexivity |].
  destruct run as [| c r]; cbn in Hl; [lia |].
  cbn in Hr. apply andb_true_iff in Hr. destruct Hr as [Hc Hr].
  cbn. rewrite Hc. apply IH; [lia | exact Hr].
Qed.

Lemma match_class_run_length (n : nat) (s : string) :
  match_class_run n s = true -> n <= String.length s.
Proof.
  revert s. induction n as [| n IH]; intros s; [lia |].
  destruct s as [| c r]; cbn; [discriminate |].
  intros H. apply andb_true_iff in H. destruct H as [_ H].
  apply IH in H. lia.
Qed.

Lemma match_digits_shorter (n : nat) (s r : string) :
  In r (match_digits n s) -> S (String.length r) <= String.length s.
Proof.
  revert s. induction n as [| n IH]; intros s; [destruct s; intros [] |].
  destruct s as [| c s']; cbn; [intros [] |].
  destruct (is_digit c); [| intros []].
  intros [<- | H]; [lia |]. apply IH in H. lia.
Qed.

Lemma match_dot_shorter (s r : string) :
  In r (match_dot s) -> S (String.length r) <= String.length s.
Proof.
  destruct s as [| c s']; cbn; [intros [] |].
  destruct (Ascii.eqb c "."); [| intros []].
  intros [<- | []]. lia.
Qed.

Lemma match_ipv4_here_length (s : string) :
  match_ipv4_here s = true -> 7 <= String.length s.
Proof.
  unfold match_ipv4_here. cbv zeta.
  assert (Hstep : forall k l, (forall r, In r l -> String.length r + k <= String.length s) ->
            forall r, In r (flat_map (match_digits 3) (flat_map match_dot l)) ->
                      String.length r + (k + 2) <= String.length s).
  { intros k l Hl r Hr. apply in_flat_map in Hr. destruct Hr as [x [Hx Hr]].
    apply in_flat_map in Hx. destruct Hx as [y [Hy Hx]].
    apply match_digits_shorter in Hr. apply match_dot_shorter in Hx.
    specialize (Hl y Hy). lia. }
  assert (H0 : forall r, In r (match_digits 3 s) -> String.length r + 1 <= String.length s).
  { intros r Hr. apply match_digits_shorter in Hr. lia. }
  pose proof (Hstep _ _ (Hstep _ _ (Hstep _ _ H0))) as H3.
  destruct (flat_map _ _) as [| r l]; [discriminate |].
  intros _. specialize (H3 r (or_introl eq_refl)). lia.
Qed.

(** X3: the IP-literal flag is 0 or 1; it is 1 for every host that
    contains four dot-separated groups of one to three digits, and for
    every host that contains ten consecutive characters among the
    hexadecimal digits and the colon; it is 0 for every host of fewer than
    7 characters. *)
Theorem has_ip_address_cases :
  (forall d : string, _has_ip_address d = 0 \/ _has_ip_address d = 1)
  /\ (forall pre g1 g2 g3 g4 post : string,
         digit_group g1 = true -> digit_group g2 = true ->
         digit_group g3 = true -> digit_group g4 = true ->
         _has_ip_address
           (pre ++ g1 ++ "." ++ g2 ++ "." ++ g3 ++ "." ++ g4 ++ post) = 1)
  /\ (forall pre run post : string,
         10 <= String.length run ->
         forallb is_hex_or_colon (list_ascii_of_string run) = true ->
         _has_ip_address (pre ++ run ++ post) = 1)
  /\ (forall d : string, String.length d < 7 -> _has_ip_address d = 0).
Proof.
  repeat split.
  - intros d. unfold _has_ip_address.
    destruct (search match_ipv4_here d); [now right |].
    destruct (search (match_class_run 10) d); [now right | now left].
  - intros pre g1 g2 g3 g4 post H1 H2 H3 H4. unfold _has_ip_address.
    rewrite search_app_l; [reflexivity |].
    apply search_here. now apply match_ipv4_here_quad.
  - intros pre run post Hl Hr. unfold _has_ip_address.
    destruct (search match_ipv4_here (pre ++ run ++ post)); [reflexivity |].
    rewrite search_app_l; [reflexivity |].
    apply search_here. now apply match_class_run_prefix.
  - intros d Hd. unfold _has_ip_address.
    destruct (search match_ipv4_here d) eqn:E4.
    + apply search_true in E4. destruct E4 as [t [Ht Hl]].
      apply match_ipv4_here_length in Ht. lia.
    + destruct (search (match_class_run 10) d) eqn:E6; [| reflexivity].
      apply search_true in E6. destruct E6 as [t [Ht Hl]].
      apply match_class_run_length in Ht. lia.
Qed.

Lemma has_ip_address_cases_witness :
  _has_ip_address ("user@" ++ "192" ++ "." ++ "168" ++ "." ++ "1" ++ "." ++ "10" ++ ":8080") = 1
  /\ _has_ip_address ("" ++ "deadbeef00" ++ ".example.com") = 1
  /\ _has_ip_address "a.b.io" = 0.
Proof.
  destruct has_ip_address_cases as [_ [H4 [H6 Hs]]].
  split; [| split].
  - apply H4; reflexivity.
  - apply H6; [cbn; lia | reflexivity].
  - apply Hs. cbn. lia.
Defined.

Lemma counter_repeat (c : ascii) (k m : nat) :
  fold_left (fun acc a => counter_add a acc) (repeat c k) [(c, m)] = [(c, m + k)].
Proof.
  revert m. induction k as [| k IH]; intros m; cbn.
  - now rewrite Nat.add_0_r.
  - rewrite Ascii.eqb_refl. rewrite IH. f_equal. f_equal. lia.
Qed.

Lemma list_ascii_repeat_char (c : ascii) (n : nat) :
  list_ascii_of_string (repeat_char c n) = repeat c n.
Proof. induction n as [| n IH]; [reflexivity |]. cbn. now rewrite IH. Qed.

Lemma length_repeat_char (c : ascii) (n : nat) :
  String.length (repeat_char c n) = n.
Proof. induction n as [| n IH]; [reflexivity |]. cbn. now rewrite IH. Qed.

(** X4: the entropy of the empty host is 0 without any logarithm being
    taken, and the entropy of a host made of one repeated character is
    [-(1 * log2 1)], hence 0 as soon as [log2 1] is 0. *)
Theorem entropy_of_repeated_character :
  forall (w : World) (c : ascii) (n : nat),
    (forall p : Q, (p == 1)%Q -> (log2 w p == 0)%Q) ->
    _shannon_entropy w "" = Fin 0
    /\ exists q : Q,
         _shannon_entropy w (repeat_char c (S n)) = Fin q /\ (q == 0)%Q.
Proof.
  intros w c n Hlog. split; [reflexivity |].
  unfold _shannon_entropy. rewrite length_repeat_char. cbn [Nat.eqb].
  unfold Counter. rewrite list_ascii_repeat_char. cbn [repeat fold_left counter_add].
  rewrite counter_repeat. cbn [map snd].
  set (p := (inject_Z (Z.of_nat (1 + n)) / inject_Z (Z.of_nat (S n)))%Q).
  assert (Hp : (p == 1)%Q).
  { unfold p. change (1 + n) with (S n). apply Qmult_inv_r.
    unfold Qeq, inject_Z. cbn [Qnum Qden]. lia. }
  assert (Hpos : Qltb 0 p = true).
  { unfold Qltb. destruct (Qle_bool p 0) eqn:E; [| reflexivity].
    apply Qle_bool_iff in E. rewrite Hp in E. exfalso. revert E. apply Qlt_not_le.
    reflexivity. }
  cbn [filter]. rewrite Hpos. cbn [map]. unfold Qsum. cbn [fold_left].
  eexists. split; [reflexivity |].
  rewrite (Hlog p Hp). ring.
Qed.

Lemma entropy_of_repeated_character_witness :
  (forall p : Q, (p == 1)%Q -> (log2 network_down p == 0)%Q)
  /\ exists q : Q,
       _shannon_entropy network_down (repeat_char "a" 3) = Fin q /\ (q == 0)%Q.
Proof.
  assert (H : forall p : Q, (p == 1)%Q -> (log2 network_down p == 0)%Q)
    by (intros p _; reflexivity).
  split; [exact H |].
  exact (proj2 (entropy_of_repeated_character network_down "a" 2 H)).
Defined.

(** ** More on feature extraction *)

Lemma field_not_dict (w : World) (x default : pyval) (k : string) :
  is_dict x = false -> field w x k default = Raise AttributeError.
Proof. destruct x; cbn; try reflexivity. discriminate. Qed.

Lemma field_raises (w : World) (g : list (string * pyval)) (k : string)
    (v default : pyval) (e0 : exn) :
  lookup k g = Some v -> py_float w v = Raise e0 ->
  field w (VDict g) k default = Raise e0.
Proof.
  intros Hk Hv. unfold field. cbn [py_get bind]. now rewrite Hk.
Qed.

Ltac walk_enriched :=
  repeat (cbn [py_get bind];
          match goal with
          | |- exists e, Raise ?x = Raise e => exists x; reflexivity
          | |- exists e, bind (field ?w ?sec ?k ?dflt) _ = Raise e =>
              first
                [ rewrite (field_not_dict w sec dflt k) by assumption
                | match goal with
                  | Hk : lookup k ?g = Some ?v, Hv : py_float w ?v = Raise ?e0 |- _ =>
                      rewrite (field_raises w g k v dflt e0 Hk Hv)
                  end
                | destruct (field w sec k dflt) ]
          end).

Lemma lookup_Some_nonempty {V : Type} (k : string) (d : list (string * V)) (v : V) :
  lookup k d = Some v -> d <> [].
Proof. destruct d; [discriminate | discriminate]. Qed.

Lemma enriched_raises_zero (w : World) (url : string) (d : list (string * pyval)) :
  d <> [] ->
  (exists e, _extract_enriched w (VDict d) = Raise e) ->
  extract_all w url (VDict d) = zero_features.
Proof.
  intros Hd [e He]. unfold extract_all, extract_all_body.
  destruct (urlparse w url) as [p | x]; cbn [bind]; [| reflexivity].
  destruct d; [contradiction |]. cbn [truthy]. now rewrite He.
Qed.

(** X5: a malformed enrichment record costs the lexical features too.
    When one of the eight sections the extractor reads is present but is
    not a dict (a null, a list, a number, a string), or a field it reads
    holds a value that [float] rejects, the result is the all-zero vector,
    whatever the URL. *)
Theorem malformed_enrichment_zeroes_everything :
  forall (w : World) (url : string) (d : list (string * pyval)),
    (forall (s : string) (x : pyval),
        In s enrichment_sections -> lookup s d = Some x -> is_dict x = false ->
        extract_all w url (VDict d) = zero_features)
    /\ (forall (feat sec fld : string) (dflt v : pyval)
               (g : list (string * pyval)) (e0 : exn),
           In (feat, (sec, (fld, dflt))) enriched_table ->
           lookup sec d = Some (VDict g) -> lookup fld g = Some v ->
           py_float w v = Raise e0 ->
           extract_all w url (VDict d) = zero_features).
Proof.
  intros w url d. split.
  - intros s x Hs Hl Hx.
    apply enriched_raises_zero; [exact (lookup_Some_nonempty _ _ _ Hl) |].
    unfold _extract_enriched. cbn in Hs.
    repeat (destruct Hs as [<- | Hs];
            [cbn [py_get bind]; rewrite Hl; walk_enriched |]).
    destruct Hs.
  - intros feat sec fld dflt v g e0 Hrow Hl Hk Hv.
    apply enriched_raises_zero; [exact (lookup_Some_nonempty _ _ _ Hl) |].
    unfold _extract_enriched. cbn in Hrow.
    repeat (destruct Hrow as [[= <- <- <- <-] | Hrow];
            [cbn [py_get bind]; rewrite Hl; walk_enriched |]).
    destruct Hrow.
Qed.

Lemma malformed_enrichment_zeroes_everything_witness :
  In "whois" enrichment_sections
  /\ lookup "whois" [("whois", VNone)] = Some VNone
  /\ is_dict VNone = false
  /\ extract_all network_down "http://192.168.0.1/login"
       (VDict [("whois", VNone)]) = zero_features.
Proof.
  assert (H1 : In "whois" enrichment_sections) by (cbn; tauto).
  assert (H2 : lookup "whois" [("whois", VNone)] = Some VNone) by reflexivity.
  assert (H3 : is_dict VNone = false) by reflexivity.
  split; [exact H1 | split; [exact H2 | split; [exact H3 |]]].
  exact (proj1 (malformed_enrichment_zeroes_everything network_down
                  "http://192.168.0.1/login" [("whois", VNone)])
               "whois" VNone H1 H2 H3).
Defined.

Lemma extract_all_no_enrichment (w : World) (url : string) (p : ParseResult) :
  urlparse w url = Ok p ->
  extract_all w url VNone =
  (_extract_lexical w url p
   ++ map (fun n => (n, Fin 0)) (skipn 10 feature_names))%list.
Proof.
  intros Hp. unfold extract_all.
  destruct (extract_all_body w url VNone) as [f | x] eqn:H.
  - apply extract_all_body_shape in H.
    destruct H as [p' [en [Hp' [-> [[_ ->] | [Ht _]]]]]]; [| discriminate].
    rewrite Hp in Hp'. now injection Hp' as <-.
  - unfold extract_all_body in H. rewrite Hp in H. discriminate.
Qed.

Lemma firstn_lexical (w : World) (url : string) (p : ParseResult)
    (en : features_dict) :
  firstn 10 (_extract_lexical w url p ++ en)%list = _extract_lexical w url p.
Proof. reflexivity. Qed.

(** X6: when extraction succeeds, the ten lexical features are the same
    whatever enrichment record was supplied: they are the first ten entries
    of the result and equal those obtained with no record. *)
Theorem lexical_features_independent_of_enrichment :
  forall (w : World) (url : string) (e : pyval) (f : features_dict),
    extract_all_body w url e = Ok f ->
    extract_all w url e = f
    /\ firstn 10 f = firstn 10 (extract_all w url VNone)
    /\ exists p, urlparse w url = Ok p /\ firstn 10 f = _extract_lexical w url p.
Proof.
  intros w url e f H. split; [unfold extract_all; now rewrite H |].
  apply extract_all_body_shape in H.
  destruct H as [p [en [Hp [-> _]]]].
  rewrite (extract_all_no_enrichment w url p Hp), !firstn_lexical.
  split; [reflexivity |]. exists p. split; [exact Hp | reflexivity].
Qed.

Lemma lexical_features_independent_of_enrichment_witness :
  extract_all_body network_down "" infinite_reputation
  = Ok (extract_all network_down "" infinite_reputation)
  /\ firstn 10 (extract_all network_down "" infinite_reputation)
     = firstn 10 (extract_all network_down "" VNone).
Proof.
  assert (H : extract_all_body network_down "" infinite_reputation
              = Ok (extract_all network_down "" infinite_reputation))
    by (vm_compute; reflexivity).
  split; [exact H |].
  exact (proj1 (proj2 (lexical_features_independent_of_enrichment
                         network_down "" infinite_reputation _ H))).
Defined.

(** X7: when a non-empty record is read without error, each of the 15
    enriched features of the result is [float(section.get(field, default))]
    for its section, field and default: 0 everywhere except 0.5 for
    [as_reputation_score], the section defaulting to the empty dict. *)
Theorem enriched_features_read_from_record :
  forall (w : World) (url : string) (e : pyval) (f : features_dict),
    truthy e = true ->
    extract_all_body w url e = Ok f ->
    Forall (fun row =>
              exists (s : pyval) (v : pyfloat),
                py_get e (fst (snd row)) (VDict []) = Ok s
                /\ field w s (fst (snd (snd row))) (snd (snd (snd row))) = Ok v
                /\ lookup (fst row) f = Some v)
           enriched_table.
Proof.
  intros w url e f Ht H.
  apply extract_all_body_shape in H.
  destruct H as [p [en [Hp [-> [[Ht' _] | [_ He]]]]]]; [congruence |].
  unfold _extract_enriched in He. bind_inv He. injection He as <-.
  unfold enriched_table.
  repeat (constructor;
          [cbn [fst snd]; eexists; eexists;
           split; [eassumption | split; [eassumption | reflexivity]] |]).
  constructor.
Qed.

Lemma enriched_features_read_from_record_witness :
  truthy (VDict [("virustotal", VDict [("positives", VInt 7)])]) = true
  /\ lookup "vt_positives"
       (extract_all network_down ""
          (VDict [("virustotal", VDict [("positives", VInt 7)])]))
     = Some (Fin 7).
Proof.
  split; [reflexivity |].
  assert (H : extract_all_body network_down ""
                (VDict [("virustotal", VDict [("positives", VInt 7)])])
              = Ok (extract_all network_down ""
                      (VDict [("virustotal", VDict [("positives", VInt 7)])])))
    by (vm_compute; reflexivity).
  pose proof (enriched_features_read_from_record network_down ""
                (VDict [("virustotal", VDict [("positives", VInt 7)])])
                _ (eq_refl true) H) as T.
  unfold enriched_table in T.
  do 12 (apply Forall_inv_tail in T). apply Forall_inv in T.
  cbn [fst snd] in T. destruct T as [s [v [Hs [Hv Hl]]]].
  injection Hs as <-. injection Hv as <-. exact Hl.
Defined.

(** ** More on the whitelist *)

Lemma string_app_assoc (a b c : string) : (a ++ b) ++ c = a ++ b ++ c.
Proof. induction a as [| x r IH]; [reflexivity |]. cbn. now rewrite IH. Qed.

Lemma subdomain_is_whitelisted (d pre : string) :
  is_whitelisted d = true -> is_whitelisted (pre ++ "." ++ d) = true.
Proof.
  unfold is_whitelisted. intros H.
  assert (Hlow : lower (pre ++ "." ++ d) = lower pre ++ "." ++ lower d)
    by (now rewrite lower_app).
  destruct (mem (lower (pre ++ "." ++ d)) WHITELIST); [reflexivity |].
  apply existsb_exists.
  destruct (mem (lower d) WHITELIST) eqn:E.
  - apply mem_In in E. exists (lower d). split; [exact E |].
    apply endswith_spec. exists (lower pre). exact Hlow.
  - apply existsb_exists in H. destruct H as [t [Ht He]].
    apply endswith_spec in He. destruct He as [q Hq].
    exists t. split; [exact Ht |].
    apply endswith_spec. exists (lower pre ++ "." ++ q).
    rewrite Hlow, Hq. now rewrite !string_app_assoc.
Qed.

(** X8: the whitelist test does not depend on the case of the host, and
    every subdomain of a whitelisted host is whitelisted. *)
Theorem whitelist_closed_under_subdomains :
  forall d pre : string,
    is_whitelisted (lower d) = is_whitelisted d
    /\ (is_whitelisted d = true -> is_whitelisted (pre ++ "." ++ d) = true).
Proof.
  intros d pre. split.
  - unfold is_whitelisted. now rewrite lower_idempotent.
  - apply subdomain_is_whitelisted.
Qed.

Lemma whitelist_closed_under_subdomains_witness :
  is_whitelisted "github.io" = true
  /\ is_whitelisted ("Any-Name.pages" ++ "." ++ "github.io") = true.
Proof.
  assert (H : is_whitelisted "github.io" = true) by (vm_compute; reflexivity).
  split; [exact H |].
  exact (proj2 (whitelist_closed_under_subdomains "github.io" "Any-Name.pages") H).
Defined.

(** X9: for a URL whose host is whitelisted, [predict] returns benign with
    confidence 1.0, no explanation and no feature, whatever the trained
    model, the enrichment record and the diagnostics lookups do; this holds
    in particular for every subdomain of a whitelisted host. *)
Theorem whitelisted_host_is_benign :
  forall (w : World) (url : string) (e : pyval) (p : ParseResult),
    urlparse w url = Ok p ->
    (is_whitelisted (netloc p) = true
     \/ exists pre t, is_whitelisted t = true /\ netloc p = pre ++ "." ++ t) ->
    exists ai : additional_info,
      predict w url e = Ok (mkPrediction Benign 1 (model_version w) [] [] ai).
Proof.
  intros w url e p Hp H.
  assert (Hw : is_whitelisted (netloc p) = true).
  { destruct H as [H | [pre [t [Ht ->]]]]; [exact H |].
    now apply subdomain_is_whitelisted. }
  unfold predict, whitelist_result. rewrite Hp, Hw.
  eexists. reflexivity.
Qed.

Lemma whitelisted_host_is_benign_witness :
  urlparse network_down "https://evil.github.io/paypal-login"
  = Ok (mkParse "evil.github.io" "/paypal-login" "")
  /\ exists ai : additional_info,
       predict network_down "https://evil.github.io/paypal-login" VNone
       = Ok (mkPrediction Benign 1 "v1.0.0" [] [] ai).
Proof.
  assert (Hp : urlparse network_down "https://evil.github.io/paypal-login"
               = Ok (mkParse "evil.github.io" "/paypal-login" ""))
    by reflexivity.
  split; [exact Hp |].
  apply (whitelisted_host_is_benign network_down _ VNone _ Hp).
  right. exists "evil", "github.io". split; reflexivity.
Defined.

(** ** More on the diagnostics *)

(** X10: the DNS diagnostic is false exactly when the URL parses and both
    the A and the MX lookup raise, whatever they raise; in every other
    case, a URL that does not parse included, it is true. *)
Theorem check_dns_false_iff :
  forall (w : World) (url : string),
    _check_dns w url = false <->
    exists (p : ParseResult) (x y : exn),
      urlparse w url = Ok p
      /\ dns_resolve w (netloc p) RdA = Raise x
      /\ dns_resolve w (netloc p) RdMX = Raise y.
Proof.
  intros w url. unfold _check_dns. split.
  - destruct (urlparse w url) as [p | x]; [| discriminate].
    destruct (dns_resolve w (netloc p) RdA) as [[] | x] eqn:Ea; [discriminate |].
    destruct (dns_resolve w (netloc p) RdMX) as [[] | y] eqn:Em; [discriminate |].
    intros _. exists p, x, y. auto.
  - intros [p [x [y [Hp [Ha Hm]]]]]. now rewrite Hp, Ha, Hm.
Qed.

(** X11: the domain age is known exactly when the URL parses and the WHOIS
    creation date is a naive datetime, or a list whose first entry is a
    naive datetime; the later entries of a list are never read, and an
    empty list, a timezone-aware datetime (whose subtraction from the naive
    current time raises), a value of another type and every exception give
    an unknown age. *)
Theorem domain_age_known_iff :
  forall (w : World) (url : string) (age : Z),
    _get_domain_age_days w url = Some age <->
    exists p : ParseResult,
      urlparse w url = Ok p
      /\ (whois_creation_date w (netloc p) = Ok (CdSingle (DateTime age))
          \/ exists rest,
               whois_creation_date w (netloc p) = Ok (CdList (DateTime age :: rest))).
Proof.
  intros w url age. unfold _get_domain_age_days. split.
  - destruct (urlparse w url) as [p | x]; cbn [bind]; [| discriminate].
    destruct (whois_creation_date w (netloc p)) as [[d | [| d rest]] | x] eqn:Ew;
      cbn [bind]; try discriminate.
    + destruct d; try discriminate. intros [= ->]. exists p.
      split; [reflexivity | now left].
    + destruct d; try discriminate. intros [= ->]. exists p.
      split; [reflexivity |]. right. now exists rest.
  - intros [p [Hp [H | [rest H]]]]; rewrite Hp; cbn [bind]; now rewrite H.
Qed.

Lemma title_brand_hits_fold (title domain : string)
    (brands : list (string * list string)) (acc : Z) :
  (acc <=
   fold_left
     (fun score bl =>
        if contains (fst bl) title then
          if existsb (fun leg_domain => contains leg_domain domain) (snd bl)
          then score else (score + 1)%Z
        else score) brands acc
   <= acc + Z.of_nat (List.length brands))%Z.
Proof.
  revert acc. induction brands as [| bl r IH]; intros acc; cbn [fold_left List.length].
  - lia.
  - destruct (contains (fst bl) title);
      [destruct (existsb _ (snd bl)) |];
      match goal with |- (_ <= fold_left _ _ ?a <= _)%Z => specialize (IH a) end; lia.
Qed.

Lemma title_brand_hits_range (title domain : string) :
  (0 <= title_brand_hits title domain <= 16)%Z.
Proof.
  unfold title_brand_hits. cbv zeta.
  pose proof (title_brand_hits_fold (lower title) domain TARGET_BRANDS 0) as H.
  cbn [List.length TARGET_BRANDS] in H. exact H.
Qed.

Lemma analyze_content_plaintext_login (w : World) (url : string) (r : page) :
  get_page w url = Ok r -> page_status_code r = 200%Z ->
  page_has_password_field r = true -> startswith url "https" = false ->
  (2 <= _analyze_content w url)%Z.
Proof.
  intros Hr Hs Hp Hh. unfold _analyze_content.
  rewrite Hr, Hs, Hp, Hh. cbn [Z.eqb Pos.eqb negb].
  destruct (urlparse w url) as [p | x]; [| lia].
  destruct (negb (String.eqb (page_title r) "")); [| lia].
  pose proof (title_brand_hits_range (page_title r) (netloc p)). lia.
Qed.



(** ** More on the escalation pass *)

(** X13: content analysis of a page that has a password field and was
    fetched from a URL not starting with "https" turns every state whose
    verdict is not yet malicious into the state with verdict malicious,
    confidence max(confidence, 0.9) and [suspicious_content], with the
    content score as value and contribution 0.7, in front of the
    explanations; that confidence is at least 0.9 and not below the
    previous one. *)
Theorem plaintext_login_form_is_malicious :
  forall (w : World) (url : string) (r : page) (st : pass_state),
    get_page w url = Ok r ->
    page_status_code r = 200%Z ->
    page_has_password_field r = true ->
    startswith url "https" = false ->
    cur_verdict st <> Malicious ->
    let st' := content_step true (_analyze_content w url) st in
    st' = mkState Malicious (Qmax (cur_confidence st) 0.9)
            (mkExplanation "suspicious_content"
               (float_of_Z (_analyze_content w url)) (Fin 0.7)
               :: cur_top_features st)
    /\ cur_verdict st' = Malicious
    /\ cur_confidence st' = Qmax (cur_confidence st) 0.9
    /\ (0.9 <= cur_confidence st')%Q
    /\ (cur_confidence st <= cur_confidence st')%Q
    /\ cur_top_features st' =
       mkExplanation "suspicious_content"
         (float_of_Z (_analyze_content w url)) (Fin 0.7)
         :: cur_top_features st.
Proof.
  intros w url r st Hr Hs Hp Hh Hv st'.
  assert (H2 : (2 <= _analyze_content w url)%Z)
    by exact (analyze_content_plaintext_login w url r Hr Hs Hp Hh).
  assert (E : st' = mkState Malicious (Qmax (cur_confidence st) 0.9)
            (mkExplanation "suspicious_content"
               (float_of_Z (_analyze_content w url)) (Fin 0.7)
               :: cur_top_features st)).
  { unfold st', content_step.
    assert (Hn : negb (verdict_eqb (cur_verdict st) Malicious) = true)
      by (destruct (cur_verdict st); try reflexivity; contradiction).
    rewrite Hn. cbn [andb].
    assert (E1 : (_analyze_content w url >? 0)%Z = true) by lia.
    assert (E2 : (_analyze_content w url >=? 2)%Z = true) by lia.
    rewrite E1, E2. reflexivity. }
  split; [exact E |]. rewrite E.
  cbn [cur_verdict cur_confidence cur_top_features].
  split; [reflexivity |]. split; [reflexivity |].
  split; [apply Q.le_max_r |]. split; [apply Q.le_max_l | reflexivity].
Qed.

Lemma plaintext_login_form_is_malicious_witness :
  let st := mkState Benign 0.97 [mkExplanation "url_length" (Fin 20) (Fin 0.1)] in
  cur_verdict st <> Malicious
  /\ content_step true
       (_analyze_content login_page_world "http://example.test/") st
     = mkState Malicious (Qmax 0.97 0.9)
         (mkExplanation "suspicious_content"
            (float_of_Z (_analyze_content login_page_world "http://example.test/"))
            (Fin 0.7)
            :: [mkExplanation "url_length" (Fin 20) (Fin 0.1)]).
Proof.
  intros st.
  assert (H : cur_verdict st <> Malicious) by (cbn; discriminate).
  split; [exact H |].
  exact (proj1 (plaintext_login_form_is_malicious login_page_world
                  "http://example.test/" two_brand_login_page st
                  eq_refl eq_refl eq_refl eq_refl H)).
Defined.

(** X14: when the DNS flag is false the whole pass ends malicious with
    confidence 0.9 and [invalid_dns] as first explanation, whatever the
    classifier said, whatever the other diagnostics are and whether or not
    content analysis is available. *)
Theorem invalid_dns_forces_malicious :
  forall (ai : additional_info) (available : bool) (content_score : Z)
         (st : pass_state),
    info_dns ai = Some false ->
    escalate ai available content_score st =
    mkState Malicious 0.9
      (mkExplanation "invalid_dns" (Fin 1) (Fin 0.8)
         :: cur_top_features (brand_step ai (new_domain_step ai st))).
Proof.
  intros ai available score st H. unfold escalate, dns_step. rewrite H.
  unfold content_step, insert_front. cbn [cur_verdict verdict_eqb negb].
  now rewrite andb_false_r.
Qed.

Lemma invalid_dns_forces_malicious_witness :
  let ai := Info (mkDiagnostics None (Some false) true None "Unknown") in
  info_dns ai = Some false
  /\ escalate ai true 0%Z (mkState Benign 0.99 []) =
     mkState Malicious 0.9 [mkExplanation "invalid_dns" (Fin 1) (Fin 0.8)].
Proof.
  intros ai.
  assert (H : info_dns ai = Some false) by reflexivity.
  split; [exact H |].
  exact (invalid_dns_forces_malicious ai true 0%Z (mkState Benign 0.99 []) H).
Defined.

Lemma new_domain_step_shape (ai : additional_info) (st : pass_state) :
  new_domain_step ai st = st
  \/ exists v c e, new_domain_step ai st = mkState v c (e :: cur_top_features st).
Proof.
  unfold new_domain_step.
  destruct (info_age ai) as [age |]; [| now left].
  destruct (age <? 30)%Z; [| now left].
  destruct (cur_verdict st); [right | right | now left | now left];
    unfold insert_front; eauto.
Qed.

Lemma brand_step_shape (ai : additional_info) (st : pass_state) :
  brand_step ai st = st
  \/ exists e, brand_step ai st = mkState Malicious 0.95 (e :: cur_top_features st).
Proof.
  unfold brand_step.
  destruct (info_brand ai) as [b |]; [| now left].
  destruct (String.eqb b ""); [now left | right].
  unfold insert_front. eauto.
Qed.

Lemma dns_step_shape (ai : additional_info) (st : pass_state) :
  dns_step ai st = st
  \/ exists e, dns_step ai st = mkState Malicious 0.9 (e :: cur_top_features st).
Proof.
  unfold dns_step.
  destruct (info_dns ai) as [[|] |]; [now left | right | now left].
  unfold insert_front. eauto.
Qed.

Lemma content_step_shape (available : bool) (score : Z) (st : pass_state) :
  content_step available score st = st
  \/ (cur_verdict st <> Malicious
      /\ exists v c e,
           content_step available score st = mkState v c (e :: cur_top_features st)).
Proof.
  unfold content_step.
  destruct available; [| now left].
  destruct (verdict_eqb (cur_verdict st) Malicious) eqn:E; [now left |].
  cbn [negb andb].
  destruct (score >? 0)%Z; [| now left].
  right. split; [intros H; rewrite H in E; discriminate |].
  destruct (score >=? 2)%Z; unfold insert_front; eauto.
Qed.

(** X15: the pass only ever puts explanations in front of those of the
    classifier: the final list is the initial one preceded by at most three
    new entries, so nothing the classifier reported is dropped or
    reordered. *)
Theorem explanations_are_prepended :
  forall (ai : additional_info) (available : bool) (content_score : Z)
         (st : pass_state),
  exists added : list explanation,
    cur_top_features (escalate ai available content_score st)
    = (added ++ cur_top_features st)%list
    /\ List.length added <= 3.
Proof.
  intros ai available score st. unfold escalate.
  set (s1 := new_domain_step ai st).
  set (s2 := brand_step ai s1).
  set (s3 := dns_step ai s2).
  assert (H1 : exists a1, cur_top_features s1 = (a1 ++ cur_top_features st)%list
                          /\ List.length a1 <= 1).
  { destruct (new_domain_step_shape ai st) as [E | [v [c [e E]]]];
      unfold s1; rewrite E; [exists [] | exists [e]]; split; cbn; auto. }
  destruct H1 as [a1 [E1 L1]].
  destruct (brand_step_shape ai s1) as [E2 | [e2 E2]];
    destruct (dns_step_shape ai s2) as [E3 | [e3 E3]];
    destruct (content_step_shape available score s3) as [E4 | [Hv [v [c [e4 E4]]]]];
    fold s2 in E2; fold s3 in E3; rewrite E4;
    try (exfalso; apply Hv; rewrite E3; reflexivity);
    try (exfalso; apply Hv; rewrite E3, E2; reflexivity);
    cbn [cur_top_features]; rewrite ?E3; cbn [cur_top_features];
    rewrite ?E2; cbn [cur_top_features]; rewrite E1.
  - exists a1. split; [reflexivity | lia].
  - exists (e4 :: a1). split; [reflexivity | cbn; lia].
  - exists (e3 :: a1). split; [reflexivity | cbn; lia].
  - exists (e2 :: a1). split; [reflexivity | cbn; lia].
  - exists (e3 :: e2 :: a1). split; [reflexivity | cbn; lia].
Qed.

Lemma Qmin_range (a b : Q) :
  (0 <= a)%Q -> (0 <= b)%Q -> (b <= 1)%Q ->
  (0 <= Qmin a b)%Q /\ (Qmin a b <= 1)%Q.
Proof.
  intros Ha Hb Hb1. split; [now apply Q.min_glb |].
  apply (Qle_trans _ b); [apply Q.le_min_r | exact Hb1].
Qed.

Lemma Qmax_range (a b : Q) :
  (0 <= a)%Q -> (a <= 1)%Q -> (b <= 1)%Q ->
  (0 <= Qmax a b)%Q /\ (Qmax a b <= 1)%Q.
Proof.
  intros Ha Ha1 Hb1. split; [| now apply Q.max_lub].
  apply (Qle_trans _ a); [exact Ha | apply Q.le_max_l].
Qed.

Lemma escalate_confidence_bounds :
  forall (ai : additional_info) (available : bool) (content_score : Z)
         (st : pass_state),
    (0 <= cur_confidence st)%Q -> (cur_confidence st <= 1)%Q ->
    (0 <= cur_confidence (escalate ai available content_score st))%Q
    /\ (cur_confidence (escalate ai available content_score st) <= 1)%Q.
Proof.
  intros ai available score st H0 H1.
  assert (S1 : (0 <= cur_confidence (new_domain_step ai st))%Q
               /\ (cur_confidence (new_domain_step ai st) <= 1)%Q).
  { unfold new_domain_step.
    destruct (info_age ai) as [age |]; [| tauto].
    destruct (age <? 30)%Z; [| tauto].
    destruct (cur_verdict st); cbn [insert_front cur_confidence]; try tauto.
    - split; lra.
    - apply Qmin_range; lra. }
  set (s1 := new_domain_step ai st) in *.
  assert (S2 : (0 <= cur_confidence (brand_step ai s1))%Q
               /\ (cur_confidence (brand_step ai s1) <= 1)%Q).
  { destruct (brand_step_shape ai s1) as [E | [e E]]; rewrite E;
      [tauto | cbn; split; lra]. }
  set (s2 := brand_step ai s1) in *.
  assert (S3 : (0 <= cur_confidence (dns_step ai s2))%Q
               /\ (cur_confidence (dns_step ai s2) <= 1)%Q).
  { destruct (dns_step_shape ai s2) as [E | [e E]]; rewrite E;
      [tauto | cbn; split; lra]. }
  set (s3 := dns_step ai s2) in *.
  unfold escalate. fold s1 s2 s3. unfold content_step.
  destruct (available && negb (verdict_eqb (cur_verdict s3) Malicious)); [| tauto].
  destruct (score >? 0)%Z; [| tauto].
  destruct (score >=? 2)%Z; cbn [insert_front cur_confidence];
    apply Qmax_range; lra.
Qed.

(** X16: the pass keeps the confidence a probability: from a confidence
    between 0 and 1 it ends with a confidence between 0 and 1. *)
Theorem escalation_confidence_range :
  forall (ai : additional_info) (available : bool) (content_score : Z)
         (st : pass_state),
    (0 <= cur_confidence st)%Q -> (cur_confidence st <= 1)%Q ->
    (0 <= cur_confidence (escalate ai available content_score st))%Q
    /\ (cur_confidence (escalate ai available content_score st) <= 1)%Q.
Proof.
  intros ai available score st H0 H1.
  destruct (escalate_confidence_bounds ai available score st H0 H1) as [L U].
  split; [exact L | exact U].
Qed.

Lemma escalation_confidence_range_witness :
  let ai := Info (mkDiagnostics (Some 3%Z) None false None "Unknown") in
  let st := mkState Suspicious 0.95 [] in
  (0 <= cur_confidence st)%Q /\ (cur_confidence st <= 1)%Q
  /\ (cur_confidence (escalate ai true 1%Z st) <= 1)%Q.
Proof.
  intros ai st.
  assert (H0 : (0 <= cur_confidence st)%Q) by (cbn; lra).
  assert (H1 : (cur_confidence st <= 1)%Q) by (cbn; lra).
  split; [exact H0 | split; [exact H1 |]].
  exact (proj2 (escalation_confidence_range ai true 1%Z st H0 H1)).
Defined.

(** X17: without a signal the pass changes nothing: when the age is
    unknown or at least 30 days, no brand is reported, the DNS flag is not
    false, and content analysis is unavailable or scores nothing, the
    classifier's verdict, confidence and explanations are returned as they
    are. *)
Theorem quiet_pass_is_identity :
  forall (ai : additional_info) (available : bool) (content_score : Z)
         (st : pass_state),
    (forall age, info_age ai = Some age -> (30 <= age)%Z) ->
    info_brand ai = None ->
    info_dns ai <> Some false ->
    (available = false \/ (content_score <= 0)%Z) ->
    escalate ai available content_score st = st.
Proof.
  intros ai available score st Hage Hbrand Hdns Hcontent.
  unfold escalate.
  assert (E1 : new_domain_step ai st = st).
  { unfold new_domain_step. destruct (info_age ai) as [age |]; [| reflexivity].
    specialize (Hage age eq_refl).
    destruct (age <? 30)%Z eqn:E; [lia | reflexivity]. }
  assert (E2 : brand_step ai st = st) by (unfold brand_step; now rewrite Hbrand).
  assert (E3 : dns_step ai st = st).
  { unfold dns_step. destruct (info_dns ai) as [[|] |]; congruence. }
  rewrite E1, E2, E3. unfold content_step.
  destruct Hcontent as [-> | Hs]; [reflexivity |].
  destruct (available && _); [| reflexivity].
  destruct (score >? 0)%Z eqn:E; [lia | reflexivity].
Qed.

Lemma quiet_pass_is_identity_witness :
  let ai := Info (mkDiagnostics (Some 4000%Z) (Some true) true None "Unknown") in
  let st := mkState Benign 0.8 [] in
  escalate ai true 0%Z st = st.
Proof.
  intros ai st.
  apply quiet_pass_is_identity.
  - intros age [= <-]. lia.
  - reflexivity.
  - discriminate.
  - right. lia.
Defined.

(** X18: a benign verdict for a domain younger than 30 days (a negative
    age included) becomes suspicious with confidence 0.65 and
    [newly_registered_domain], contribution 0.5, as first explanation, when
    no other rule fires; a malicious verdict is left as it is by the
    new-domain rule. *)
Theorem new_domain_escalation :
  forall (ai : additional_info) (available : bool) (content_score : Z)
         (age : Z) (st : pass_state),
    info_age ai = Some age -> (age < 30)%Z ->
    (cur_verdict st = Malicious -> new_domain_step ai st = st)
    /\ (cur_verdict st = Benign ->
        info_brand ai = None -> info_dns ai <> Some false ->
        (available = false \/ (content_score <= 0)%Z) ->
        escalate ai available content_score st =
        mkState Suspicious 0.65
          (mkExplanation "newly_registered_domain" (float_of_Z age) (Fin 0.5)
             :: cur_top_features st)).
Proof.
  intros ai available score age st Hage Hlt.
  assert (E : (age <? 30)%Z = true) by lia.
  split.
  - intros Hv. unfold new_domain_step. now rewrite Hage, E, Hv.
  - intros Hv Hbrand Hdns Hcontent. unfold escalate.
    assert (E1 : new_domain_step ai st =
                 mkState Suspicious 0.65
                   (mkExplanation "newly_registered_domain" (float_of_Z age) (Fin 0.5)
                      :: cur_top_features st)).
    { unfold new_domain_step. now rewrite Hage, E, Hv. }
    rewrite E1. unfold brand_step. rewrite Hbrand.
    assert (E3 : forall s, dns_step ai s = s).
    { intros s. unfold dns_step. destruct (info_dns ai) as [[|] |]; congruence. }
    rewrite E3. unfold content_step.
    destruct Hcontent as [-> | Hs]; [reflexivity |].
    destruct (available && _); [| reflexivity].
    destruct (score >? 0)%Z eqn:E4; [lia | reflexivity].
Qed.

Lemma new_domain_escalation_witness :
  let ai := Info (mkDiagnostics (Some 10%Z) (Some true) false None "Unknown") in
  info_age ai = Some 10%Z /\ (10 < 30)%Z
  /\ escalate ai false 0%Z (mkState Benign 0.9 []) =
     mkState Suspicious 0.65
       [mkExplanation "newly_registered_domain" (float_of_Z 10) (Fin 0.5)].
Proof.
  intros ai.
  assert (H1 : info_age ai = Some 10%Z) by reflexivity.
  assert (H2 : (10 < 30)%Z) by lia.
  split; [exact H1 | split; [exact H2 |]].
  apply (proj2 (new_domain_escalation ai false 0%Z 10%Z (mkState Benign 0.9 []) H1 H2)).
  - reflexivity.
  - reflexivity.
  - discriminate.
  - now left.
Defined.

(** ** More on the mock scorer *)

Lemma Qltb_true (a b : Q) : Qltb a b = true <-> (a < b)%Q.
Proof.
  unfold Qltb. rewrite negb_true_iff. split.
  - intros H. apply Qnot_le_lt. intros Hle.
    apply Qle_bool_iff in Hle. congruence.
  - intros H. destruct (Qle_bool b a) eqn:E; [| reflexivity].
    apply Qle_bool_iff in E. exfalso. now apply (Qlt_not_le a b).
Qed.

Lemma Qltb_false (a b : Q) : Qltb a b = false <-> (b <= a)%Q.
Proof.
  unfold Qltb. rewrite negb_false_iff. apply Qle_bool_iff.
Qed.

Lemma mock_score_range (features : features_dict) (s : Z) :
  mock_score features = Ok s -> (0 <= s <= 8)%Z.
Proof.
  unfold mock_score. intros H. bind_inv H. injection H as <-.
  destruct (float_gt a 0), (float_gt a0 0), (float_gt a1 0),
    (float_gt a2 75), (float_gt a3 3); lia.
Qed.

Lemma inject_Z_ge (a b : Z) : (a <= b)%Z -> (inject_Z a <= inject_Z b)%Q.
Proof. intros H. unfold Qle, inject_Z. cbn [Qnum Qden]. lia. Qed.

Lemma mock_verdict_range (s : Z) (rnd : Q) :
  (0 <= s <= 8)%Z -> (0 <= rnd)%Q -> (rnd < 1)%Q ->
  fst (mock_verdict s rnd) <> Unknown
  /\ (0.65 <= snd (mock_verdict s rnd))%Q
  /\ (snd (mock_verdict s rnd) <= 0.99)%Q.
Proof.
  intros Hs H0 H1. unfold mock_verdict.
  destruct (s >=? 2)%Z eqn:E2; cbn [fst snd].
  - split; [discriminate | split].
    + pose proof (inject_Z_ge 2 s ltac:(lia)) as Hi.
      change (inject_Z 2) with 2%Q in Hi.
      apply Q.min_glb; lra.
    + apply Q.le_min_r.
  - destruct (s >=? 1)%Z; cbn [fst snd].
    + split; [discriminate | split; lra].
    + split; [discriminate | split; lra].
Qed.

(** X19: a result of the mock scorer has a verdict among benign,
    suspicious and malicious, a confidence between 0.65 and 0.99, the
    model version with the suffix [-mock], at most five explanations, and
    carries the feature vector and the diagnostics it was given. *)
Theorem mock_result_ranges :
  forall (version : string) (rnd : Q) (features : features_dict)
         (ai : additional_info) (r : prediction),
    (0 <= rnd)%Q -> (rnd < 1)%Q ->
    _mock_predict version rnd features ai = Ok r ->
    verdict_of r <> Unknown
    /\ (0.65 <= confidence_of r)%Q /\ (confidence_of r <= 0.99)%Q
    /\ model_version_of r = version ++ "-mock"
    /\ List.length (top_features_of r) <= 5
    /\ all_features_of r = features
    /\ additional_info_of r = ai.
Proof.
  intros version rnd features ai r H0 H1 H. unfold _mock_predict in H.
  destruct (mock_score features) as [s | x] eqn:Es; cbn [bind] in H;
    [| discriminate].
  pose proof (mock_verdict_range s rnd (mock_score_range _ _ Es) H0 H1) as Hv.
  destruct (mock_verdict s rnd) as [v c]. cbn [fst snd] in Hv.
  injection H as <-. cbn [verdict_of confidence_of model_version_of
                            top_features_of all_features_of additional_info_of].
  destruct Hv as [Hv1 [Hv2 Hv3]].
  split; [exact Hv1 | split; [exact Hv2 | split; [exact Hv3 |]]].
  split; [reflexivity | split; [| split; reflexivity]].
  change (List.length (firstn 5 (mock_top_features features)) <= 5).
  rewrite length_firstn. apply Nat.le_min_l.
Qed.

Lemma mock_result_ranges_witness :
  exists r : prediction,
    _mock_predict "v1.0.0" 0.5 ip_and_long_url InfoEmpty = Ok r
    /\ (0.65 <= confidence_of r)%Q /\ (confidence_of r <= 0.99)%Q.
Proof.
  destruct (_mock_predict "v1.0.0" 0.5 ip_and_long_url InfoEmpty) as [r | x] eqn:Hr;
    [| vm_compute in Hr; discriminate].
  exists r. split; [reflexivity |].
  assert (H0 : (0 <= 0.5)%Q) by lra.
  assert (H1 : (0.5 < 1)%Q) by lra.
  pose proof (mock_result_ranges "v1.0.0" 0.5%Q ip_and_long_url InfoEmpty r H0 H1 Hr)
    as T.
  split; [exact (proj1 (proj2 T)) | exact (proj1 (proj2 (proj2 T)))].
Defined.

Lemma getitem_raises_KeyError {V : Type} (d : list (string * V)) (k : string)
    (x : exn) :
  getitem d k = Raise x -> x = KeyError.
Proof.
  unfold getitem. destruct (lookup k d); [discriminate | now intros [= <-]].
Qed.

(** X20: the mock scorer raises [KeyError] as soon as one of the five
    features it reads is missing from the dict it is given, the empty dict
    included; a vector of [extract_all] never lacks them. *)
Theorem mock_missing_feature_raises :
  forall (version : string) (rnd : Q) (features : features_dict)
         (ai : additional_info) (k : string),
    In k mock_inputs ->
    lookup k features = None ->
    _mock_predict version rnd features ai = Raise KeyError.
Proof.
  intros version rnd features ai k Hk Hnone.
  assert (Hscore : mock_score features = Raise KeyError).
  { unfold mock_score.
    assert (Hget : getitem features k = Raise KeyError)
      by (unfold getitem; now rewrite Hnone).
    cbn in Hk.
    repeat (destruct Hk as [<- | Hk];
            [repeat match goal with
                    | |- bind (getitem features ?n) _ = _ =>
                        first [ rewrite Hget; reflexivity
                              | let E := fresh "E" in
                                destruct (getitem features n) eqn:E; cbn [bind];
                                [| apply getitem_raises_KeyError in E; now subst] ]
                    end |]).
    destruct Hk. }
  unfold _mock_predict. now rewrite Hscore.
Qed.

Lemma mock_missing_feature_raises_witness :
  In "url_length" mock_inputs
  /\ lookup "url_length" (@nil (string * pyfloat)) = None
  /\ _mock_predict "v1.0.0" 0 [] InfoEmpty = Raise KeyError.
Proof.
  assert (H1 : In "url_length" mock_inputs) by (cbn; tauto).
  assert (H2 : lookup "url_length" (@nil (string * pyfloat)) = None) by reflexivity.
  split; [exact H1 | split; [exact H2 |]].
  exact (mock_missing_feature_raises "v1.0.0" 0%Q [] InfoEmpty "url_length" H1 H2).
Defined.

(** ** The descending sort of the explanations *)

Lemma float_lt_asym (a b : pyfloat) : float_lt a b = true -> float_lt b a = false.
Proof.
  destruct a, b; cbn; try reflexivity; try discriminate.
  rewrite Qltb_true, Qltb_false. apply Qlt_le_weak.
Qed.

Lemma not_below_trans (a b c : explanation) :
  not_nan b = true -> not_below a b -> not_below b c -> not_below a c.
Proof.
  unfold not_below, not_nan.
  destruct (contribution a), (contribution b), (contribution c); cbn;
    try reflexivity; try discriminate.
  rewrite !Qltb_false. intros _ H1 H2. now apply (Qle_trans _ q0).
Qed.

Lemma insert_desc_perm (e : explanation) (l : list explanation) :
  Permutation (insert_desc e l) (e :: l).
Proof.
  induction l as [| x r IH]; cbn; [reflexivity |].
  destruct (float_lt (contribution e) (contribution x)); [| reflexivity].
  rewrite IH. apply perm_swap.
Qed.

Lemma sort_desc_perm (l : list explanation) : Permutation (sort_desc l) l.
Proof.
  unfold sort_desc. induction l as [| e r IH]; cbn; [reflexivity |].
  rewrite insert_desc_perm. now constructor.
Qed.

Lemma insert_desc_sorted (e : explanation) (l : list explanation) :
  forallb not_nan l = true ->
  StronglySorted not_below l -> StronglySorted not_below (insert_desc e l).
Proof.
  induction l as [| x r IH]; intros Hn Hs; cbn.
  - repeat constructor.
  - cbn in Hn. apply andb_true_iff in Hn. destruct Hn as [Hx Hr].
    inversion Hs as [| ? ? Hsr Hall]; subst.
    destruct (float_lt (contribution e) (contribution x)) eqn:E.
    + constructor; [now apply IH |].
      apply (Permutation_Forall (Permutation_sym (insert_desc_perm e r))).
      constructor; [now apply float_lt_asym | exact Hall].
    + constructor; [exact Hs |].
      constructor; [exact E |].
      apply Forall_forall. intros y Hy.
      rewrite Forall_forall in Hall.
      apply (not_below_trans e x y Hx E (Hall y Hy)).
Qed.

Lemma sort_desc_sorted (l : list explanation) :
  forallb not_nan l = true -> StronglySorted not_below (sort_desc l).
Proof.
  unfold sort_desc. induction l as [| e r IH]; intros Hn; cbn.
  - constructor.
  - cbn in Hn. apply andb_true_iff in Hn. destruct Hn as [He Hr].
    apply insert_desc_sorted; [| now apply IH].
    apply forallb_forall. intros y Hy.
    rewrite forallb_forall in Hr. apply Hr.
    apply (Permutation_in _ (sort_desc_perm r)). exact Hy.
Qed.

Lemma In_firstn_In {A : Type} (n : nat) (l : list A) (y : A) :
  In y (firstn n l) -> In y l.
Proof.
  revert l. induction n as [| n IH]; intros l; [intros [] |].
  destruct l as [| x r]; cbn; [intros [] |].
  intros [H | H]; [now left | right; now apply IH].
Qed.

Lemma firstn_sorted (n : nat) (l : list explanation) :
  StronglySorted not_below l -> StronglySorted not_below (firstn n l).
Proof.
  revert l. induction n as [| n IH]; intros l Hs; [constructor |].
  destruct l as [| x r]; [constructor |]. cbn.
  inversion Hs as [| ? ? Hsr Hall]; subst.
  constructor; [now apply IH |].
  apply Forall_forall. intros y Hy. rewrite Forall_forall in Hall.
  apply Hall. now apply (In_firstn_In n r).
Qed.

Lemma mock_top_features_unfold (features : features_dict) :
  mock_top_features features =
  sort_desc (map mock_explanation (filter positive_feature features)).
Proof.
  reflexivity.
Qed.

(** X21: the explanations of the mock scorer are the first five entries
    of a list that holds exactly the features of positive value (a NaN or
    a non-positive value gives none), each with half its value as
    contribution, in descending order of contribution. *)
Theorem mock_explanations_sorted :
  forall features : features_dict,
  exists sorted : list explanation,
    mock_top_features features = sorted
    /\ Permutation sorted (map mock_explanation (filter positive_feature features))
    /\ StronglySorted not_below sorted
    /\ Forall (fun e => In (name e, value e) features
                        /\ float_gt (value e) 0 = true
                        /\ contribution e = float_scale (value e) 0.5) sorted
    /\ (forall version rnd ai r,
           _mock_predict version rnd features ai = Ok r ->
           top_features_of r = firstn 5 sorted
           /\ StronglySorted not_below (top_features_of r)).
Proof.
  intros features. eexists. split; [reflexivity |].
  rewrite mock_top_features_unfold.
  set (l := map mock_explanation (filter positive_feature features)).
  assert (Hl : Forall (fun e => In (name e, value e) features
                                /\ float_gt (value e) 0 = true
                                /\ contribution e = float_scale (value e) 0.5) l).
  { apply Forall_forall. intros e He. unfold l in He. apply in_map_iff in He.
    destruct He as [[n v] [<- Hin]]. apply filter_In in Hin.
    destruct Hin as [Hin Hpos]. cbn. auto. }
  assert (Hn : forallb not_nan l = true).
  { apply forallb_forall. intros e He. rewrite Forall_forall in Hl.
    destruct (Hl e He) as [_ [Hpos Hc]]. unfold not_nan. rewrite Hc.
    destruct (value e); cbn in *; try reflexivity. discriminate. }
  pose proof (sort_desc_sorted l Hn) as Hs.
  split; [apply sort_desc_perm | split; [exact Hs | split]].
  - apply (Permutation_Forall (Permutation_sym (sort_desc_perm l))). exact Hl.
  - intros version rnd ai r H. unfold _mock_predict in H.
    destruct (mock_score features) as [s | x]; cbn [bind] in H; [| discriminate].
    destruct (mock_verdict s rnd) as [v c].
    assert (E : top_features_of r = firstn 5 (mock_top_features features))
      by (injection H as <-; reflexivity).
    rewrite mock_top_features_unfold in E. fold l in E. rewrite E.
    split; [reflexivity | now apply firstn_sorted].
Qed.

Lemma mock_explanations_sorted_witness :
  exists r : prediction,
    _mock_predict "v1.0.0" 0 ip_and_long_url InfoEmpty = Ok r
    /\ StronglySorted not_below (top_features_of r).
Proof.
  destruct (_mock_predict "v1.0.0" 0 ip_and_long_url InfoEmpty) as [r | x] eqn:Hr;
    [| vm_compute in Hr; discriminate].
  exists r. split; [reflexivity |].
  destruct (mock_explanations_sorted ip_and_long_url) as [sorted [_ [_ [_ [_ H]]]]].
  exact (proj2 (H "v1.0.0" 0%Q InfoEmpty r Hr)).
Defined.

(** X22: the mock scorer applies none of the escalation rules: its
    verdict, confidence, explanations and feature vector are the same
    whatever diagnostics it is given, a reported brand or a false DNS flag
    included; the diagnostics are only copied into the result. *)
Theorem mock_ignores_diagnostics :
  forall (version : string) (rnd : Q) (features : features_dict)
         (ai ai' : additional_info),
    _mock_predict version rnd features ai' =
    match _mock_predict version rnd features ai with
    | Ok r =>
        Ok (mkPrediction (verdict_of r) (confidence_of r) (model_version_of r)
              (top_features_of r) (all_features_of r) ai')
    | Raise x => Raise x
    end.
Proof.
  intros version rnd features ai ai'. unfold _mock_predict.
  destruct (mock_score features) as [s | x]; cbn [bind]; [| reflexivity].
  destruct (mock_verdict s rnd) as [v c]. reflexivity.
Qed.

(** ** More on [predict] and the scoring backend *)

Lemma mapM_ext_in {A B : Type} (f g : A -> result B) (l : list A) :
  (forall a, In a l -> f a = g a) -> mapM f l = mapM g l.
Proof.
  induction l as [| a r IH]; intros H; [reflexivity |].
  cbn. rewrite (H a (or_introl eq_refl)).
  rewrite IH; [reflexivity |]. intros x Hx. apply H. now right.
Qed.

Lemma mapM_getitem_keys (d : features_dict) :
  NoDup (keys d) -> mapM (getitem d) (keys d) = Ok (values d).
Proof.
  induction d as [| [k v] r IH]; intros Hnd; [reflexivity |].
  cbn [keys map fst] in *. inversion Hnd as [| ? ? Hk Hr]; subst.
  cbn [mapM]. unfold getitem at 1. cbn [lookup]. rewrite String.eqb_refl.
  cbn [bind].
  rewrite (mapM_ext_in (getitem ((k, v) :: r)) (getitem r)).
  - fold (keys r). rewrite (IH Hr). reflexivity.
  - intros a Ha. unfold getitem. cbn [lookup].
    destruct (String.eqb_spec a k) as [-> | _]; [contradiction | reflexivity].
Qed.

Lemma feature_array_of_vector (f : features_dict) :
  keys f = feature_names ->
  mapM (getitem f) feature_names = Ok (values f).
Proof.
  intros Hk. rewrite <- Hk. apply mapM_getitem_keys.
  rewrite Hk. apply feature_names_NoDup.
Qed.

Lemma index_out_of_range {A : Type} (a : list A) (i : Z) :
  (i < - Z.of_nat (List.length a))%Z \/ (Z.of_nat (List.length a) <= i)%Z ->
  index a i = Raise IndexError.
Proof.
  intros H. unfold index. cbv zeta.
  destruct (i <? 0)%Z eqn:E.
  - destruct (i + Z.of_nat (List.length a) <? 0)%Z eqn:E'; [reflexivity | lia].
  - destruct (i <? 0)%Z eqn:E'; [discriminate |].
    assert (Hn : nth_error a (Z.to_nat i) = None) by (apply nth_error_None; lia).
    now rewrite Hn.
Qed.

(** X23: a failure of the scoring backend is not an error of [predict]:
    when the scaler or the model raises, or the predicted class is not an
    index of the probability row, the result for a host that is not
    whitelisted is the mock scorer's. *)
Theorem backend_failure_falls_back :
  forall (w : World) (url : string) (e : pyval) (m : Model) (sc : Scaler),
    model w = Some m -> scaler w = Some sc ->
    whitelist_result w url = None ->
    ((exists err, transform sc (values (extract_all w url e)) = Raise err)
     \/ (exists a err,
            transform sc (values (extract_all w url e)) = Ok a
            /\ predict_class m a = Raise err)
     \/ (exists a c err,
            transform sc (values (extract_all w url e)) = Ok a
            /\ predict_class m a = Ok c /\ predict_proba m a = Raise err)
     \/ (exists a c ps,
            transform sc (values (extract_all w url e)) = Ok a
            /\ predict_class m a = Ok c /\ predict_proba m a = Ok ps
            /\ ((c < - Z.of_nat (List.length ps))%Z
                \/ (Z.of_nat (List.length ps) <= c)%Z))) ->
    predict w url e =
    _mock_predict (model_version w) (random_random w)
      (extract_all w url e) (gather_info w url).
Proof.
  intros w url e m sc Hm Hs Hw H. unfold predict. rewrite Hw.
  replace (model_result w url (extract_all w url e) (gather_info w url))
    with (@None prediction); [reflexivity |].
  unfold model_result. rewrite Hm, Hs.
  destruct (ML_AVAILABLE w); [| reflexivity].
  rewrite (feature_array_of_vector _ (extract_all_keys w url e)). cbn [bind].
  destruct H as [[err H] | [[a [err [Ha H]]] | [[a [c [err [Ha [Hc H]]]]]
                 | [a [c [ps [Ha [Hc [Hp H]]]]]]]]].
  - now rewrite H.
  - rewrite Ha. cbn [bind]. now rewrite H.
  - rewrite Ha. cbn [bind]. rewrite Hc. cbn [bind]. now rewrite H.
  - rewrite Ha. cbn [bind]. rewrite Hc. cbn [bind]. rewrite Hp. cbn [bind].
    now rewrite (index_out_of_range ps c H).
Qed.

Lemma backend_failure_falls_back_witness :
  model broken_backend_world = Some broken_model
  /\ whitelist_result broken_backend_world "http://example.test/" = None
  /\ predict broken_backend_world "http://example.test/" VNone =
     _mock_predict "v1.0.0" 0
       (extract_all broken_backend_world "http://example.test/" VNone)
       (gather_info broken_backend_world "http://example.test/").
Proof.
  assert (H1 : model broken_backend_world = Some broken_model) by reflexivity.
  assert (H2 : scaler broken_backend_world = Some identity_scaler) by reflexivity.
  assert (H3 : whitelist_result broken_backend_world "http://example.test/" = None)
    by (vm_compute; reflexivity).
  split; [exact H1 | split; [exact H3 |]].
  apply (backend_failure_falls_back broken_backend_world "http://example.test/"
           VNone broken_model identity_scaler H1 H2 H3).
  right. left. eexists. exists OtherError. split; reflexivity.
Defined.

Lemma mapM_Forall {A B : Type} (f : A -> result B) (l : list A) (r : list B) :
  mapM f l = Ok r ->
  List.length r = List.length l
  /\ Forall (fun b => exists a, In a l /\ f a = Ok b) r.
Proof.
  revert r. induction l as [| a l IH]; intros r H; cbn in H.
  - injection H as <-. split; [reflexivity | constructor].
  - destruct (f a) as [b |] eqn:Ea; cbn [bind] in H; [| discriminate].
    destruct (mapM f l) as [bs |]; cbn [bind] in H; [| discriminate].
    injection H as <-. destruct (IH bs eq_refl) as [Hl Hf].
    split; [cbn; now rewrite Hl |].
    constructor; [exists a; split; [now left | exact Ea] |].
    apply Forall_forall. intros b' Hb'. rewrite Forall_forall in Hf.
    destruct (Hf b' Hb') as [a' [Ha' Hfa']]. exists a'. split; [now right | exact Hfa'].
Qed.

Lemma mapM_raises {A B : Type} (f : A -> result B) (l : list A) (a : A) (x : exn) :
  In a l -> f a = Raise x -> exists y, mapM f l = Raise y.
Proof.
  induction l as [| a' l IH]; intros Hin Hf; [destruct Hin |].
  cbn. destruct (f a') as [b |] eqn:Ea; cbn [bind]; [| eauto].
  destruct Hin as [-> | Hin]; [congruence |].
  destruct (IH Hin Hf) as [y Hy]. rewrite Hy. cbn [bind]. eauto.
Qed.

Lemma enumerate_from_In {A : Type} (k i : nat) (l : list A) (x : A) :
  In (i, x) (enumerate_from k l) <-> k <= i /\ nth_error l (i - k) = Some x.
Proof.
  revert k. induction l as [| a r IH]; intros k; cbn.
  - split; [intros [] |]. intros [_ H]. destruct (i - k); discriminate.
  - rewrite IH. split.
    + intros [[= <- <-] | [Hk Hn]].
      * split; [lia |]. now rewrite Nat.sub_diag.
      * split; [lia |]. replace (i - k) with (S (i - S k)) by lia. exact Hn.
    + intros [Hk Hn]. destruct (i - k) as [| j] eqn:E.
      * left. injection Hn as <-. f_equal. lia.
      * right. split; [lia |]. replace (i - S k) with j by lia. exact Hn.
Qed.

(** X24: the explanations ranked by the trained model are at most five,
    in descending order of importance, each the value of a canonical
    feature with the importance at that feature's position; without
    importances there is none, and importances that are fewer than the 25
    features make the ranking raise (which sends [predict] to the mock
    scorer). *)
Theorem model_top_features :
  forall (m : Model) (f : features_dict),
    (forall l, _get_top_features m f = Ok l ->
       List.length l <= 5
       /\ StronglySorted not_below l
       /\ Forall (fun e =>
                    lookup (name e) f = Some (value e)
                    /\ exists i c imp,
                         feature_importances_ m = Some imp
                         /\ nth_error feature_names i = Some (name e)
                         /\ nth_error imp i = Some c
                         /\ contribution e = Fin c) l)
    /\ (feature_importances_ m = None -> _get_top_features m f = Ok [])
    /\ (forall imp, feature_importances_ m = Some imp ->
                    List.length imp < 25 -> keys f = feature_names ->
                    exists x, _get_top_features m f = Raise x).
Proof.
  intros m f. unfold _get_top_features. split; [| split].
  - intros l H. destruct (feature_importances_ m) as [imp |].
    + match type of H with
      | bind (mapM ?g ?en) _ = _ =>
          destruct (mapM g en) as [raw |] eqn:Eraw; cbn [bind] in H;
          [| discriminate]
      end.
      assert (El : l = firstn 5 (sort_desc raw)) by congruence.
      subst l. clear H.
      apply mapM_Forall in Eraw. destruct Eraw as [_ Hraw].
      assert (Hprop : Forall (fun e =>
                        lookup (name e) f = Some (value e)
                        /\ exists i c imp0,
                             Some imp = Some imp0
                             /\ nth_error feature_names i = Some (name e)
                             /\ nth_error imp0 i = Some c
                             /\ contribution e = Fin c) raw).
      { apply Forall_forall. intros e' He'. rewrite Forall_forall in Hraw.
        destruct (Hraw e' He') as [[i n] [Hin Hf]]. cbn [fst snd] in Hf.
        apply enumerate_from_In in Hin. destruct Hin as [_ Hn].
        rewrite Nat.sub_0_r in Hn.
        unfold getitem in Hf.
        destruct (lookup n f) as [v |] eqn:Ev; cbn [bind] in Hf; [| discriminate].
        destruct (nth_error imp i) as [c |] eqn:Ec; cbn [bind] in Hf;
          [| discriminate].
        injection Hf as <-. cbn [name value contribution].
        split; [exact Ev |]. exists i, c, imp. auto. }
      assert (Hnan : forallb not_nan raw = true).
      { apply forallb_forall. intros e' He'. rewrite Forall_forall in Hprop.
        destruct (Hprop e' He') as [_ [i [c [imp0 [_ [_ [_ Hc]]]]]]].
        unfold not_nan. now rewrite Hc. }
      split; [rewrite length_firstn; apply Nat.le_min_l |].
      split; [apply firstn_sorted; now apply sort_desc_sorted |].
      apply Forall_forall. intros e' He'. apply In_firstn_In in He'.
      apply (Permutation_in _ (sort_desc_perm raw)) in He'.
      rewrite Forall_forall in Hprop. exact (Hprop e' He').
    + injection H as <-. split; [cbn; lia | split; constructor].
  - intros ->. reflexivity.
  - intros imp -> Hlen Hk.
    assert (Hnth : exists n, nth_error feature_names (List.length imp) = Some n).
    { destruct (nth_error feature_names (List.length imp)) as [n |] eqn:E;
        [now exists n |].
      apply nth_error_None in E. cbn in E. lia. }
    destruct Hnth as [n Hn].
    assert (Hin : In (List.length imp, n) (enumerate_from 0 feature_names)).
    { apply enumerate_from_In. split; [lia |]. now rewrite Nat.sub_0_r. }
    assert (Hv : exists v, lookup n f = Some v).
    { apply lookup_of_keys. rewrite Hk. apply (nth_error_In _ _ Hn). }
    destruct Hv as [v Hv].
    match goal with
    | |- exists x, bind (mapM ?g ?en) _ = _ =>
        destruct (mapM_raises g en (List.length imp, n) IndexError Hin) as [y Hy]
    end.
    + cbn [fst snd]. unfold getitem. rewrite Hv. cbn [bind].
      assert (E : nth_error imp (List.length imp) = None)
        by (apply nth_error_None; lia).
      now rewrite E.
    + rewrite Hy. cbn [bind]. eauto.
Qed.

Lemma model_top_features_witness :
  let ranked :=
    [ mkExplanation "has_ip_address" (Fin 1) (Fin 0.2);
      mkExplanation "url_length" (Fin 80) (Fin 0.15);
      mkExplanation "char_entropy" (Fin 0) (Fin 0.1);
      mkExplanation "suspicious_keywords" (Fin 0) (Fin 0.1);
      mkExplanation "domain_age_days" (Fin 0) (Fin 0.1) ] in
  (_get_top_features ranked_model ip_and_long_url = Ok ranked
   /\ List.length ranked <= 5
   /\ StronglySorted not_below ranked)
  /\ (feature_importances_ broken_model = None
      /\ _get_top_features broken_model ip_and_long_url = Ok [])
  /\ (feature_importances_ short_model = Some [0.5; 0.3; 0.2]%Q
      /\ List.length [0.5; 0.3; 0.2]%Q < 25
      /\ keys ip_and_long_url = feature_names
      /\ exists x, _get_top_features short_model ip_and_long_url = Raise x).
Proof.
  intros ranked.
  assert (H1 : _get_top_features ranked_model ip_and_long_url = Ok ranked)
    by (vm_compute; reflexivity).
  assert (H2 : feature_importances_ broken_model = None) by reflexivity.
  assert (H3 : feature_importances_ short_model = Some [0.5; 0.3; 0.2]%Q)
    by reflexivity.
  assert (H4 : List.length [0.5; 0.3; 0.2]%Q < 25) by (cbn; lia).
  assert (H5 : keys ip_and_long_url = feature_names) by reflexivity.
  split; [| split].
  - split; [exact H1 |].
    pose proof (proj1 (model_top_features ranked_model ip_and_long_url)
                  ranked H1) as T.
    split; [exact (proj1 T) | exact (proj1 (proj2 T))].
  - split; [exact H2 |].
    exact (proj1 (proj2 (model_top_features broken_model ip_and_long_url)) H2).
  - split; [exact H3 | split; [exact H4 | split; [exact H5 |]]].
    exact (proj2 (proj2 (model_top_features short_model ip_and_long_url))
             _ H3 H4 H5).
Defined.

(** ** More on the brand detector *)

Lemma brand_loop_sound (dist : string -> string -> nat) (d : string)
    (brands : list (string * list string)) (b : string) :
  brand_loop dist d brands = Some b ->
  exists legit,
    In (b, legit) brands /\ mem d legit = false
    /\ (contains b d = true \/ existsb (typosquats dist d) legit = true).
Proof.
  induction brands as [| [b' legit] r IH]; cbn [brand_loop]; [discriminate |].
  destruct (mem d legit) eqn:Em.
  - intros H. destruct (IH H) as [l [Hin Hrest]]. exists l. split; [now right | exact Hrest].
  - destruct (contains b' d) eqn:Ec.
    + intros [= <-]. exists legit. split; [now left | auto].
    + destruct (existsb (typosquats dist d) legit) eqn:Et.
      * intros [= <-]. exists legit. split; [now left | auto].
      * intros H. destruct (IH H) as [l [Hin Hrest]]. exists l.
        split; [now right | exact Hrest].
Qed.

Lemma brand_loop_complete (dist : string -> string -> nat) (d : string)
    (brands : list (string * list string)) (b : string) (legit : list string) :
  In (b, legit) brands -> mem d legit = false -> contains b d = true ->
  exists (b' : string) (before after : list (string * list string)),
    brands = (before ++ (b, legit) :: after)%list
    /\ brand_loop dist d brands = Some b'
    /\ (b' = b \/ In b' (map fst before)).
Proof.
  induction brands as [| [b0 l0] r IH]; intros Hin Hm Hc; [destruct Hin |].
  cbn [brand_loop]. destruct Hin as [[= -> ->] | Hin].
  - rewrite Hm, Hc. exists b, [], r. split; [reflexivity | split; [reflexivity | now left]].
  - destruct (IH Hin Hm Hc) as [b' [before [after [-> [Hl Hb]]]]].
    assert (Hhead : exists (b'' : string) (before' after' : list (string * list string)),
               (b0, l0) :: (before ++ (b, legit) :: after)%list
               = (before' ++ (b, legit) :: after')%list
               /\ Some b0 = Some b''
               /\ (b'' = b \/ In b'' (map fst before'))).
    { exists b0, ((b0, l0) :: before), after.
      split; [reflexivity | split; [reflexivity |]]. right. now left. }
    assert (Htail : exists (b'' : string) (before' after' : list (string * list string)),
               (b0, l0) :: (before ++ (b, legit) :: after)%list
               = (before' ++ (b, legit) :: after')%list
               /\ brand_loop dist d (before ++ (b, legit) :: after)%list = Some b''
               /\ (b'' = b \/ In b'' (map fst before'))).
    { exists b', ((b0, l0) :: before), after.
      split; [reflexivity | split; [exact Hl |]].
      destruct Hb as [Hb | Hb]; [now left | right; now right]. }
    destruct (mem d l0); [exact Htail |].
    destruct (contains b0 d); [exact Hhead |].
    destruct (existsb (typosquats dist d) l0); [exact Hhead | exact Htail].
Qed.

(** X25: every report of the brand detector is justified: the domain
    (lower-cased, without a leading "www.") is neither whitelisted nor one
    of the reported brand's legitimate domains, the brand is a key of the
    brand table, and the domain contains the brand token or its first label
    is within edit distance 1 or 2 of the first label of a legitimate
    domain of that brand. *)
Theorem flagged_brand_is_justified :
  forall (netloc b : string),
    check_brand netloc = Some b ->
    mem (strip_www netloc) WHITELIST = false
    /\ exists legit,
         In (b, legit) TARGET_BRANDS
         /\ mem (strip_www netloc) legit = false
         /\ (contains b (strip_www netloc) = true
             \/ exists leg,
                  In leg legit
                  /\ 0 < distance (first_field "." (strip_www netloc))
                                  (first_field "." leg) <= 2
                  /\ 4 < String.length (first_field "." (strip_www netloc))).
Proof.
  intros netloc b. unfold check_brand, brand_of_netloc.
  destruct (mem (strip_www netloc) WHITELIST); [discriminate |].
  intros H. split; [reflexivity |].
  destruct (brand_loop_sound _ _ _ _ H) as [legit [Hin [Hm Hc]]].
  exists legit. split; [exact Hin | split; [exact Hm |]].
  destruct Hc as [Hc | Hc]; [now left | right].
  apply existsb_exists in Hc. destruct Hc as [leg [Hleg Ht]].
  apply typosquats_bounds in Ht. exists leg. tauto.
Qed.

Lemma flagged_brand_is_justified_witness :
  check_brand "secure-PayPal.example" = Some "paypal"
  /\ mem (strip_www "secure-PayPal.example") WHITELIST = false.
Proof.
  assert (H : check_brand "secure-PayPal.example" = Some "paypal")
    by (rewrite check_brand_dp; vm_compute; reflexivity).
  split; [exact H |].
  exact (proj1 (flagged_brand_is_justified "secure-PayPal.example" "paypal" H)).
Defined.

(** X26: the keyword rule misses nothing: a domain that contains a brand
    token, is not whitelisted itself and is not one of that brand's
    legitimate domains is always reported, and the brand reported is that
    brand or one that stands before it in the brand table, however long the
    domain is and whatever surrounds the token. *)
Theorem brand_token_is_flagged :
  forall (netloc b : string) (legit : list string),
    In (b, legit) TARGET_BRANDS ->
    mem (strip_www netloc) WHITELIST = false ->
    mem (strip_www netloc) legit = false ->
    contains b (strip_www netloc) = true ->
    exists (b' : string) (before after : list (string * list string)),
      TARGET_BRANDS = (before ++ (b, legit) :: after)%list
      /\ check_brand netloc = Some b'
      /\ (b' = b \/ In b' (map fst before)).
Proof.
  intros netloc b legit Hin Hw Hm Hc. unfold check_brand, brand_of_netloc.
  rewrite Hw. now apply (brand_loop_complete distance _ _ b legit).
Qed.

Lemma brand_token_is_flagged_witness :
  check_brand "ebay-paypal.example" = Some "paypal"
  /\ exists (b' : string) (before after : list (string * list string)),
       TARGET_BRANDS
       = (before ++ ("ebay", ["ebay.com"; "ebay.co.uk"; "ebay.de"]) :: after)%list
       /\ check_brand "ebay-paypal.example" = Some b'
       /\ (b' = "ebay" \/ In b' (map fst before)).
Proof.
  split; [rewrite check_brand_dp; vm_compute; reflexivity |].
  apply (brand_token_is_flagged "ebay-paypal.example" "ebay"
           ["ebay.com"; "ebay.co.uk"; "ebay.de"]).
  - cbn. tauto.
  - vm_compute. reflexivity.
  - vm_compute. reflexivity.
  - vm_compute. reflexivity.
Defined.

(** X27: a domain whose first label has at most four characters is never
    reported for typosquatting: if it is reported at all, it contains the
    token of the reported brand. *)
Theorem short_label_needs_brand_token :
  forall (netloc b : string),
    String.length (first_field "." (strip_www netloc)) <= 4 ->
    check_brand netloc = Some b ->
    contains b (strip_www netloc) = true.
Proof.
  intros netloc b Hlen. unfold check_brand, brand_of_netloc.
  destruct (mem (strip_www netloc) WHITELIST); [discriminate |].
  intros H. destruct (brand_loop_sound _ _ _ _ H) as [legit [_ [_ [Hc | Hc]]]];
    [exact Hc |].
  apply existsb_exists in Hc. destruct Hc as [leg [_ Ht]].
  apply typosquats_bounds in Ht. lia.
Qed.

Lemma short_label_needs_brand_token_witness :
  String.length (first_field "." (strip_www "ebay.example")) <= 4
  /\ check_brand "ebay.example" = Some "ebay"
  /\ contains "ebay" (strip_www "ebay.example") = true.
Proof.
  assert (H1 : String.length (first_field "." (strip_www "ebay.example")) <= 4)
    by (vm_compute; lia).
  assert (H2 : check_brand "ebay.example" = Some "ebay")
    by (rewrite check_brand_dp; vm_compute; reflexivity).
  split; [exact H1 | split; [exact H2 |]].
  exact (short_label_needs_brand_token "ebay.example" "ebay" H1 H2).
Defined.

(** ** Hosts with a port *)

Lemma list_ascii_app (a b : string) :
  list_ascii_of_string (a ++ b)
  = (list_ascii_of_string a ++ list_ascii_of_string b)%list.
Proof. induction a as [| c r IH]; [reflexivity |]. cbn. now rewrite IH. Qed.

Lemma lower_ascii_digit (c : ascii) : is_digit c = true -> lower_ascii c = c.
Proof.
  destruct c as [[] [] [] [] [] [] [] []]; cbn; intros H;
    try reflexivity; discriminate.
Qed.

Lemma lower_digits (s : string) :
  forallb is_digit (list_ascii_of_string s) = true -> lower s = s.
Proof.
  induction s as [| c r IH]; [reflexivity |]. cbn.
  intros H. apply andb_true_iff in H. destruct H as [Hc Hr].
  now rewrite (lower_ascii_digit c Hc), (IH Hr).
Qed.

Lemma suffix_comparable (q t a b : string) :
  q ++ t = a ++ b -> (exists m, t = m ++ b) \/ (exists m, b = m ++ t).
Proof.
  revert a. induction q as [| c q IH]; intros a H.
  - left. exists a. exact H.
  - destruct a as [| c' a].
    + right. exists (String c q). symmetry. exact H.
    + cbn in H. injection H as _ H. exact (IH a H).
Qed.

Lemma whitelisted_suffix (n : string) :
  is_whitelisted n = true -> exists t q, In t WHITELIST /\ lower n = q ++ t.
Proof.
  unfold is_whitelisted. destruct (mem (lower n) WHITELIST) eqn:E.
  - intros _. apply mem_In in E. exists (lower n), "". split; [exact E | reflexivity].
  - intros H. apply existsb_exists in H. destruct H as [t [Ht He]].
    apply endswith_spec in He. destruct He as [pre Hpre].
    exists t, (pre ++ "."). split; [exact Ht |].
    rewrite Hpre. now rewrite string_app_assoc.
Qed.

(** X28: a host written with an explicit port is never whitelisted, since
    the port is part of what the whitelist test compares: a URL such as
    [https://google.com:443/] does not take the short-circuit. *)
Theorem host_with_port_is_not_whitelisted :
  forall host port : string,
    port <> "" ->
    forallb is_digit (list_ascii_of_string port) = true ->
    is_whitelisted (host ++ ":" ++ port) = false.
Proof.
  intros host port Hne Hd.
  assert (F1 : forallb (fun t => negb (existsb (Ascii.eqb ":") (list_ascii_of_string t)))
                       WHITELIST = true) by (vm_compute; reflexivity).
  assert (F2 : forallb (fun t => negb (forallb is_digit (list_ascii_of_string t)))
                       WHITELIST = true) by (vm_compute; reflexivity).
  rewrite forallb_forall in F1, F2.
  destruct (is_whitelisted (host ++ ":" ++ port)) eqn:E; [| reflexivity].
  exfalso. apply whitelisted_suffix in E. destruct E as [t [q [Ht Hq]]].
  specialize (F1 t Ht). specialize (F2 t Ht).
  apply negb_true_iff in F1. apply negb_true_iff in F2.
  rewrite lower_app in Hq. cbn [lower append] in Hq.
  change (lower_ascii ":") with ":"%char in Hq.
  rewrite (lower_digits port Hd) in Hq. symmetry in Hq.
  destruct (suffix_comparable q t (lower host) (String ":" port) Hq)
    as [[m Hm] | [m Hm]].
  - rewrite Hm, list_ascii_app, existsb_app in F1. cbn in F1.
    now rewrite orb_true_r in F1.
  - destruct m as [| c m]; cbn in Hm.
    + rewrite <- Hm in F1. cbn in F1. discriminate.
    + injection Hm as _ Hm. rewrite Hm, list_ascii_app, forallb_app in Hd.
      apply andb_true_iff in Hd. destruct Hd as [_ Hd]. congruence.
Qed.

Lemma host_with_port_is_not_whitelisted_witness :
  "443" <> ""
  /\ is_whitelisted "google.com" = true
  /\ is_whitelisted ("google.com" ++ ":" ++ "443") = false.
Proof.
  assert (H : "443" <> "") by discriminate.
  split; [exact H | split; [vm_compute; reflexivity |]].
  exact (host_with_port_is_not_whitelisted "google.com" "443" H eq_refl).
Defined.

(** ** Loading the backend *)

(** X29: loading leaves a usable backend (a model and a scaler) exactly
    when the ML libraries are available, the model file exists and both
    files load; a scaler is never kept without a model, but a model is
    kept without a scaler when only the scaler fails to load, and the
    detector then answers every host that is not whitelisted with the mock
    scorer. *)
Theorem load_model_backend :
  forall (ml_available : bool) (disk : Disk),
    (forall sc, snd (_load_model ml_available disk) = Some sc ->
                exists m, fst (_load_model ml_available disk) = Some m)
    /\ ((exists m sc, _load_model ml_available disk = (Some m, Some sc))
        <-> ml_available = true /\ model_path_exists disk = true
            /\ (exists m, load_model_file disk = Ok m)
            /\ (exists sc, load_scaler_file disk = Ok sc))
    /\ (forall m x, ml_available = true -> model_path_exists disk = true ->
                    load_model_file disk = Ok m -> load_scaler_file disk = Raise x ->
                    _load_model ml_available disk = (Some m, None))
    /\ (forall (w : World) (url : string) (e : pyval),
           (model w, scaler w) = _load_model ml_available disk ->
           ML_AVAILABLE w = ml_available ->
           (ml_available = false \/ model_path_exists disk = false
            \/ (exists x, load_model_file disk = Raise x)
            \/ (exists x, load_scaler_file disk = Raise x)) ->
           whitelist_result w url = None ->
           predict w url e =
           _mock_predict (model_version w) (random_random w)
             (extract_all w url e) (gather_info w url)).
Proof.
  intros ml disk. unfold _load_model. split; [| split; [| split]].
  - intros sc. destruct ml; cbn [negb]; [| discriminate].
    destruct (model_path_exists disk); cbn [negb]; [| discriminate].
    destruct (load_model_file disk) as [m |]; [| discriminate].
    destruct (load_scaler_file disk); cbn; [eauto | discriminate].
  - split.
    + intros [m [sc H]]. destruct ml; cbn [negb] in H; [| discriminate].
      destruct (model_path_exists disk); cbn [negb] in H; [| discriminate].
      destruct (load_model_file disk) as [m' |]; [| discriminate].
      destruct (load_scaler_file disk) as [sc' |]; [| discriminate].
      repeat split; eauto.
    + intros [-> [-> [[m ->] [sc ->]]]]. cbn. eauto.
  - intros m x -> -> -> ->. reflexivity.
  - intros w url e Hload Hml Hfail Hw.
    apply predict_without_backend; [| exact Hw].
    rewrite Hml.
    destruct ml; cbn [negb] in Hload; [| now right; right].
    destruct (model_path_exists disk); cbn [negb] in Hload;
      [| injection Hload as -> _; now left].
    destruct (load_model_file disk) as [m |];
      [| injection Hload as -> _; now left].
    destruct (load_scaler_file disk) as [sc |];
      [| injection Hload as _ ->; right; now left].
    destruct Hfail as [H | [H | [[x H] | [x H]]]]; discriminate.
Qed.

Lemma load_model_backend_witness :
  _load_model true disk_without_scaler = (Some broken_model, None)
  /\ predict (with_backend network_down (Some broken_model) None true)
       "http://example.test/" VNone
     = _mock_predict "v1.0.0" 0
         (extract_all network_down "http://example.test/" VNone)
         (gather_info network_down "http://example.test/").
Proof.
  pose proof (load_model_backend true disk_without_scaler) as [_ [_ [H3 H4]]].
  split.
  - exact (H3 broken_model OtherError eq_refl eq_refl eq_refl eq_refl).
  - apply (H4 (with_backend network_down (Some broken_model) None true)
              "http://example.test/" VNone).
    + reflexivity.
    + reflexivity.
    + right. right. right. exists OtherError. reflexivity.
    + vm_compute. reflexivity.
Defined.

(** ** The confidence of a result *)

Lemma index_In {A : Type} (a : list A) (i : Z) (x : A) :
  index a i = Ok x -> In x a.
Proof.
  unfold index. cbv zeta.
  destruct (_ <? 0)%Z; [discriminate |].
  destruct (nth_error a _) eqn:E; [| discriminate].
  intros [= <-]. exact (nth_error_In _ _ E).
Qed.

(** X30: the confidence of every result of [predict] is a probability:
    with a random draw in [0, 1) and a model whose class probabilities lie
    between 0 and 1, the confidence returned lies between 0 and 1, on the
    whitelist path, the model path and the mock path alike. *)
Theorem predict_confidence_is_probability :
  forall (w : World) (url : string) (e : pyval) (r : prediction),
    (0 <= random_random w)%Q -> (random_random w < 1)%Q ->
    (forall m a ps, model w = Some m -> predict_proba m a = Ok ps ->
                    Forall (fun p => (0 <= p)%Q /\ (p <= 1)%Q) ps) ->
    predict w url e = Ok r ->
    (0 <= confidence_of r)%Q /\ (confidence_of r <= 1)%Q.
Proof.
  intros w url e r H0 H1 Hp H. unfold predict in H.
  destruct (whitelist_result w url) as [r0 |] eqn:Hw.
  - injection H as <-. unfold whitelist_result in Hw.
    destruct (urlparse w url) as [p | x]; [| discriminate].
    destruct (is_whitelisted (netloc p)); [| discriminate].
    injection Hw as <-. cbn. split; lra.
  - destruct (model_result w url (extract_all w url e) (gather_info w url))
      as [r1 |] eqn:Hm.
    + injection H as <-. unfold model_result in Hm.
      destruct (model w) as [m |] eqn:Em; [| discriminate].
      destruct (scaler w) as [sc |]; [| discriminate].
      destruct (ML_AVAILABLE w); [| discriminate].
      match type of Hm with
      | match ?b with _ => _ end = _ => destruct b as [r' | x] eqn:Hb
      end; [| discriminate].
      injection Hm as <-. bind_inv Hb.
      apply (f_equal (fun x => match x with
                               | Ok p => confidence_of p
                               | Raise _ => 0%Q
                               end)) in Hb.
      cbn [confidence_of] in Hb. rewrite <- Hb.
      match goal with
      | Hpr : predict_proba m ?x = Ok ?ps, Hix : index ?ps _ = Ok ?c |- _ =>
          pose proof (Hp m x ps eq_refl Hpr) as Hall;
          rewrite Forall_forall in Hall;
          pose proof (Hall c (index_In _ _ _ Hix)) as Hc
      end.
      apply escalate_confidence_bounds; cbn [cur_confidence]; tauto.
    + unfold _mock_predict in H.
      destruct (mock_score (extract_all w url e)) as [s | x] eqn:Es;
        cbn [bind] in H; [| discriminate].
      pose proof (mock_verdict_range s (random_random w)
                    (mock_score_range _ _ Es) H0 H1) as Hv.
      destruct (mock_verdict s (random_random w)) as [v c]. cbn [fst snd] in Hv.
      assert (Er : confidence_of r = c) by (injection H as <-; reflexivity).
      rewrite Er. destruct Hv as [_ [L U]]. split; lra.
Qed.

Lemma predict_confidence_is_probability_witness :
  exists r : prediction,
    predict network_down "http://a.io/login" VNone = Ok r
    /\ (0 <= confidence_of r)%Q /\ (confidence_of r <= 1)%Q.
Proof.
  destruct (predict network_down "http://a.io/login" VNone)
    as [r | x] eqn:Hr; [| vm_compute in Hr; discriminate].
  exists r. split; [reflexivity |].
  apply (predict_confidence_is_probability network_down
           "http://a.io/login" VNone r).
  - cbn. lra.
  - cbn. lra.
  - intros m a ps Hm. discriminate Hm.
  - exact Hr.
Defined.
